(** * Spool tracker: the lifecycle engine of [main.py]

    A shallow embedding of the stage model, the three tables
    ([spools], [spool_states], [events]) and the handlers that read and
    write them ([update_spool], [spools], the row loop of [import_excel]),
    followed by the properties of the lifecycle engine.

    Conventions.
    - Python [int] is [Z]; [str] is [string] (8-bit characters).
    - A table is the list of its rows in insertion order.  A handler is a
      function from the database before the request to the database after
      it and the response; a request that raises leaves the database as it
      was, because nothing was flushed before the raise.
    - [datetime.utcnow()] is an input of the handler ([now]), a [Z]. *)

From Stdlib Require Import ZArith List String Ascii Bool Lia.
From Stdlib Require Import DecimalString Sorted.
Import ListNotations.
Open Scope string_scope.
Open Scope list_scope.
Open Scope Z_scope.

Set Implicit Arguments.

(* ================================================================== *)
(** * Python values used by the handlers *)

(** Exceptions the modelled code can raise. *)
Inductive PyError : Type :=
| ValueError
| IndexError
| OverflowError
| OperationalError.

Inductive exc (A : Type) : Type :=
| Ok (a : A)
| Raise (e : PyError).
Arguments Ok {A} a.
Arguments Raise {A} e.

Definition bind {A B : Type} (m : exc A) (k : A -> exc B) : exc B :=
  match m with
  | Ok a => k a
  | Raise e => Raise e
  end.

Notation "x <- m ;; k" := (bind m (fun x => k))
  (at level 61, m at next level, right associativity).

(** [l.index(x)]: position of the first element equal to [x],
    [ValueError] when there is none. *)
Fixpoint list_index {A : Type} (eqb : A -> A -> bool) (x : A) (l : list A)
  : exc Z :=
  match l with
  | [] => Raise ValueError
  | y :: l' => if eqb y x then Ok 0 else i <- list_index eqb x l' ;; Ok (i + 1)
  end.

(** [l[i]]: a negative index counts from the end, [IndexError] outside. *)
Definition list_getitem {A : Type} (l : list A) (i : Z) : exc A :=
  let n := Z.of_nat (List.length l) in
  let j := if i <? 0 then i + n else i in
  if (j <? 0) || (n <=? j) then Raise IndexError
  else match nth_error l (Z.to_nat j) with
       | Some a => Ok a
       | None => Raise IndexError
       end.

(** [f"{n}"] for an [int]. *)
Definition str_of_int (n : Z) : string :=
  NilZero.string_of_int (Z.to_int n).

(* ================================================================== *)
(** * Enumerations *)

Inductive Stage : Type :=
| FABRICACAO
| LOGISTICA1
| PINTURA
| LOGISTICA2
| BORDO.

Definition Stage_value (s : Stage) : string :=
  match s with
  | FABRICACAO => "FABRICACAO"
  | LOGISTICA1 => "LOGISTICA1"
  | PINTURA => "PINTURA"
  | LOGISTICA2 => "LOGISTICA2"
  | BORDO => "BORDO"
  end.

Definition Stage_eqb (a b : Stage) : bool :=
  String.eqb (Stage_value a) (Stage_value b).

Definition STAGE_ORDER : list Stage :=
  [FABRICACAO; LOGISTICA1; PINTURA; LOGISTICA2; BORDO].

(** [prev_stage]:
<<
    i = STAGE_ORDER.index(stage)
    return STAGE_ORDER[i - 1] if i > 0 else None
>> *)
Definition prev_stage (stage : Stage) : exc (option Stage) :=
  i <- list_index Stage_eqb stage STAGE_ORDER ;;
  if 0 <? i then s <- list_getitem STAGE_ORDER (i - 1) ;; Ok (Some s)
  else Ok None.

Inductive Status : Type :=
| PENDENTE
| LIBERADO
| BLOQUEADO.

Definition Status_value (s : Status) : string :=
  match s with
  | PENDENTE => "PENDENTE"
  | LIBERADO => "LIBERADO"
  | BLOQUEADO => "BLOQUEADO"
  end.

(** The strings that are the value of a member of the enumeration. *)
Definition is_stage (s : string) : bool :=
  existsb (fun m => String.eqb (Stage_value m) s) STAGE_ORDER.

Definition is_status (s : string) : bool :=
  existsb (fun m => String.eqb (Status_value m) s)
    [PENDENTE; LIBERADO; BLOQUEADO].

(* ================================================================== *)
(** * Tables *)

(** One module per mapped class; a record is a row.  Nullable columns
    ([Mapped[str | None]], [Mapped[int | None]]) are options.  The [users]
    table is written by [init_db] and [login] only and is left out. *)

Module Spool.
Record t : Type := mk { id : Z; tag : string }.
End Spool.

Module SpoolState.
Record t : Type := mk {
  spool_id : Z;
  stage : string;
  status : string;
  location : option string;
  note : option string;
  updated_at : Z;
  updated_by : option Z
}.
End SpoolState.

Module Event.
Record t : Type := mk {
  id : Z;
  spool_id : Z;
  user_id : option Z;
  ts : Z;
  action : string;
  stage : string;
  status : string;
  location : option string;
  note : option string
}.
End Event.

Module DB.
Record t : Type := mk {
  spools : list Spool.t;
  spool_states : list SpoolState.t;
  events : list Event.t
}.

(** The database after [Base.metadata.create_all] on a new file. *)
Definition empty : t := mk [] [] [].
End DB.

(** The key SQLite gives a row inserted without one into a table with an
    [INTEGER PRIMARY KEY]: 1 in an empty table, else one more than the
    largest key in use (keys stay below 2^63 - 1 here). *)
Definition next_rowid (ids : list Z) : Z :=
  match ids with
  | [] => 1
  | i :: rest => fold_left Z.max rest i + 1
  end.

(** The integers SQLite stores and the driver binds: signed, 64 bits. *)
Definition sqlite_int (n : Z) : bool :=
  (- 2 ^ 63 <=? n) && (n <? 2 ^ 63).

(** The row [db.query(Spool).get(spool_id)] returns.  For a [spool_id]
    that is no [sqlite_int] the driver cannot bind the parameter and
    raises [OverflowError]; the handlers that call [get] model that raise
    where they find no row (a key of the table is always a [sqlite_int],
    so no row is found for such a [spool_id]). *)
Definition query_get (db : DB.t) (spool_id : Z) : option Spool.t :=
  find (fun s => Spool.id s =? spool_id) (DB.spools db).

(** [db.query(Spool).filter_by(tag=tag).first()]; [=] on a [TEXT] column
    compares exactly. *)
Definition filter_by_tag_first (db : DB.t) (tag : string) : option Spool.t :=
  find (fun s => String.eqb (Spool.tag s) tag) (DB.spools db).

(** The relationship [spool.state] ([uselist=False]). *)
Definition spool_state (db : DB.t) (spool_id : Z) : option SpoolState.t :=
  find (fun st => SpoolState.spool_id st =? spool_id) (DB.spool_states db).

(** The relationship [spool.events]: the spool's events, oldest first. *)
Definition spool_events (db : DB.t) (spool_id : Z) : list Event.t :=
  filter (fun e => Event.spool_id e =? spool_id) (DB.events db).

(** The rows of [spool_states] whose key is [spool_id]. *)
Definition state_rows (db : DB.t) (spool_id : Z) : list SpoolState.t :=
  filter (fun st => SpoolState.spool_id st =? spool_id) (DB.spool_states db).

Fixpoint last_opt {A : Type} (l : list A) : option A :=
  match l with
  | [] => None
  | [a] => Some a
  | _ :: l' => last_opt l'
  end.

(** The most recent event recorded for a spool: the last one appended. *)
Definition latest_event (db : DB.t) (spool_id : Z) : option Event.t :=
  last_opt (spool_events db spool_id).

(* ================================================================== *)
(** * Handlers *)

(** What a request is answered with: a response the handler returns, an
    [HTTPException] it raises, another exception that escapes it (the
    client sees 500), or the 422 of a request that fails the validation
    of its parameters, before the handler is called. *)
Inductive Response : Type :=
| HTTPException (status_code : Z)
| RedirectResponse (url : string) (status_code : Z)
| Uncaught (e : PyError)
| RequestValidationError.

Definition raised (r : Response) : bool :=
  match r with
  | HTTPException _ => true
  | RedirectResponse _ _ => false
  | Uncaught _ => true
  | RequestValidationError => true
  end.

(** The [else] branch of [update_spool]: the assignments to the loaded
    row, flushed as an [UPDATE] of the rows with its key. *)
Definition assign_state (stage status location note : string) (now : Z)
  (st : SpoolState.t) : SpoolState.t :=
  SpoolState.mk (SpoolState.spool_id st) stage status (Some location)
    (Some note) now (SpoolState.updated_by st).

(** [update_spool], the function behind [POST /update/{spool_id}], as it
    runs once the parameters of the request are accepted. *)
Definition update_spool (spool_id : Z) (stage status location note : string)
  (now : Z) (db : DB.t) : DB.t * Response :=
  match query_get db spool_id with
  | None =>
      (db,
       if sqlite_int spool_id then HTTPException 404
       else Uncaught OverflowError)
  | Some spool =>
      let states :=
        match spool_state db (Spool.id spool) with
        | None =>
            DB.spool_states db ++
            [SpoolState.mk (Spool.id spool) stage status (Some location)
               (Some note) now None]
        | Some _ =>
            map (fun r =>
                   if SpoolState.spool_id r =? Spool.id spool
                   then assign_state stage status location note now r
                   else r)
                (DB.spool_states db)
        end in
      let ev :=
        Event.mk (next_rowid (map Event.id (DB.events db))) (Spool.id spool)
          None now "UPDATE" stage status (Some location) (Some note) in
      (DB.mk (DB.spools db) states (DB.events db ++ [ev]),
       RedirectResponse (String.append "/spool/" (str_of_int spool_id)) 303)
  end.

(** The route [POST /update/{spool_id}].  [stage] and [status] are
    required form fields ([Form(...)]); an empty value counts as a missing
    one, and the request is answered with 422 before [update_spool] is
    called.  [location] and [note] default to the empty string. *)
Definition post_update (spool_id : Z) (stage status location note : string)
  (now : Z) (db : DB.t) : DB.t * Response :=
  if String.eqb stage "" || String.eqb status ""
  then (db, RequestValidationError)
  else update_spool spool_id stage status location note now db.

(** The body of the row loop of [import_excel], for a cell whose stripped
    text is [tag]:
<<
    if not db.query(Spool).filter_by(tag=tag).first():
        db.add(Spool(tag=tag))
>>
    The query flushes the rows added so far, so it sees them. *)
Definition import_row (tag : string) (db : DB.t) : DB.t :=
  match filter_by_tag_first db tag with
  | Some _ => db
  | None =>
      DB.mk
        (DB.spools db ++
         [Spool.mk (next_rowid (map Spool.id (DB.spools db))) tag])
        (DB.spool_states db) (DB.events db)
  end.

(** The row loop of [import_excel] over the tags of the non-empty cells. *)
Definition import_rows (tags : list string) (db : DB.t) : DB.t :=
  fold_left (fun d tag => import_row tag d) tags db.

(** [get_or_create_by_tag]: one pass of the loop body, and the spool the
    tag resolves to afterwards. *)
Definition get_or_create_by_tag (tag : string) (db : DB.t)
  : DB.t * option Spool.t :=
  let db' := import_row tag db in
  (db', filter_by_tag_first db' tag).

(* ================================================================== *)
(** * Search by tag *)

(** [Spool.tag.contains(q)] is rendered as [tag LIKE '%' || q || '%'] with
    [q] bound as it is, and the engine is SQLite ([sqlite:///...]). Its
    [LIKE] reads [%] in the pattern as any run of characters and [_] as any
    one character, and compares the other characters up to the case of the
    ASCII letters.  It reads the pattern and the tag as C strings, up to
    their first NUL character, and refuses a pattern of more than 50000
    bytes: [like] is the comparison of two strings read so, [contains]
    and [spools_rows] are the test and the rows for text without NUL
    within that limit, and [sqlite_like], [sqlite_contains] and
    [spools_query] below are the test and the rows for every text. *)

Definition tolower (c : ascii) : ascii :=
  let n := N_of_ascii c in
  if ((65 <=? n) && (n <=? 90))%N then ascii_of_N (n + 32) else c.

Definition like_char_eqb (c d : ascii) : bool :=
  Ascii.eqb (tolower c) (tolower d).

Definition is_wildcard (c : ascii) : bool :=
  Ascii.eqb c "%" || Ascii.eqb c "_".

Fixpoint like (pattern : string) : string -> bool :=
  match pattern with
  | EmptyString =>
      fun s => match s with EmptyString => true | String _ _ => false end
  | String c p =>
      if Ascii.eqb c "%" then
        fix any (s : string) : bool :=
          like p s ||
          match s with EmptyString => false | String _ s' => any s' end
      else if Ascii.eqb c "_" then
        fun s =>
          match s with EmptyString => false | String _ s' => like p s' end
      else
        fun s =>
          match s with
          | EmptyString => false
          | String d s' => like_char_eqb c d && like p s'
          end
  end.

Definition contains (tag q : string) : bool :=
  like (String "%" (String.append q "%")) tag.

(** The [rows] of the handler [spools] ([GET /spools?q=...]):
<<
    query = db.query(Spool)
    if q:
        query = query.filter(Spool.tag.contains(q))
    rows = query.limit(100).all()
>>
    The query has no [ORDER BY]; rows come in table order here.  These
    are the rows for a query and for tags without a NUL character and for
    a pattern within SQLite's limit; [spools_query] below covers the
    rest. *)
Definition spools_rows (q : string) (db : DB.t) : list Spool.t :=
  let query := DB.spools db in
  let query :=
    if negb (String.eqb q "")
    then filter (fun s => contains (Spool.tag s) q) query
    else query in
  firstn 100 query.

(** ** Substrings, for comparison *)

(** [q] is a prefix of [s], the characters compared by [eqb]. *)
Fixpoint prefix_by (eqb : ascii -> ascii -> bool) (q s : string) : bool :=
  match q, s with
  | EmptyString, _ => true
  | String _ _, EmptyString => false
  | String c q', String d s' => eqb c d && prefix_by eqb q' s'
  end.

(** [q] occurs in [s], the characters compared by [eqb]. *)
Fixpoint occurs_by (eqb : ascii -> ascii -> bool) (q s : string) : bool :=
  prefix_by eqb q s ||
  match s with
  | EmptyString => false
  | String _ s' => occurs_by eqb q s'
  end.

(** Python's [q in tag]: the case-sensitive substring test. *)
Definition is_substring (q tag : string) : bool := occurs_by Ascii.eqb q tag.

(** The substring test up to the case of ASCII letters. *)
Definition is_substring_nocase (q tag : string) : bool :=
  occurs_by like_char_eqb q tag.

Definition wildcard_free (q : string) : bool :=
  forallb (fun c => negb (is_wildcard c)) (list_ascii_of_string q).

(** ** The query as SQLite runs it *)

(** SQLite hands the pattern and the tag to [LIKE] as C strings: each
    ends at its first NUL character.  [like] above is the comparison of
    two such strings. *)
Fixpoint c_str (s : string) : string :=
  match s with
  | EmptyString => EmptyString
  | String c s' =>
      if Ascii.eqb c zero then EmptyString else String c (c_str s')
  end.

Definition nul_free (s : string) : bool :=
  forallb (fun c => negb (Ascii.eqb c zero)) (list_ascii_of_string s).

(** The length in bytes of the text SQLite holds (UTF-8): one byte for a
    code point below 128, two for one below 256. *)
Fixpoint utf8_length (s : string) : Z :=
  match s with
  | EmptyString => 0
  | String c s' =>
      (if (N_of_ascii c <? 128)%N then 1 else 2) + utf8_length s'
  end.

Definition SQLITE_MAX_LIKE_PATTERN_LENGTH : Z := 50000.

(** [s LIKE pattern]: a pattern of more bytes than the limit is refused
    with the error ["LIKE or GLOB pattern too complex"], which reaches
    the handler as [OperationalError]. *)
Definition sqlite_like (pattern s : string) : exc bool :=
  if SQLITE_MAX_LIKE_PATTERN_LENGTH <? utf8_length pattern
  then Raise OperationalError
  else Ok (like (c_str pattern) (c_str s)).

(** [SELECT ... WHERE p LIMIT limit] over the rows of a table: the rows
    are tested one after the other, until [limit] rows passed or the table
    ends; an error of the test ends the statement. *)
Fixpoint select_limit {A : Type} (p : A -> exc bool) (rows : list A)
  (limit : nat) : exc (list A) :=
  match rows with
  | [] => Ok []
  | a :: rest =>
      match limit with
      | O => Ok []
      | S limit' =>
          b <- p a ;;
          if b then l <- select_limit p rest limit' ;; Ok (a :: l)
          else select_limit p rest limit
      end
  end.

(** What [query.limit(100).all()] gives the handler [spools]: the rows,
    or the error of the statement. *)
Definition spools_query (q : string) (db : DB.t) : exc (list Spool.t) :=
  if negb (String.eqb q "")
  then
    select_limit
      (fun s =>
         sqlite_like (String "%" (String.append q "%")) (Spool.tag s))
      (DB.spools db) 100
  else Ok (firstn 100 (DB.spools db)).

(** The test of the query on one tag, when the pattern is within the
    limit. *)
Definition sqlite_contains (tag q : string) : bool :=
  like (c_str (String "%" (String.append q "%"))) (c_str tag).

(* ================================================================== *)
(** * Runs of the handlers *)

(** The form of one [POST /update/{spool_id}] and the clock reading of the
    request that carries it. *)
Module Form.
Record t : Type := mk {
  stage : string;
  status : string;
  location : string;
  note : string;
  now : Z
}.
End Form.

Definition update_with (spool_id : Z) (f : Form.t) (db : DB.t)
  : DB.t * Response :=
  update_spool spool_id (Form.stage f) (Form.status f) (Form.location f)
    (Form.note f) (Form.now f) db.

(** The requests of [forms] sent one after the other for one spool; the
    responses come back in the order of the requests. *)
Fixpoint update_seq (spool_id : Z) (forms : list Form.t) (db : DB.t)
  : DB.t * list Response :=
  match forms with
  | [] => (db, [])
  | f :: rest =>
      let (db1, r) := update_with spool_id f db in
      let (db2, rs) := update_seq spool_id rest db1 in
      (db2, r :: rs)
  end.

(** The databases the handlers can produce from the empty one. *)
Inductive reachable : DB.t -> Prop :=
| reachable_empty : reachable DB.empty
| reachable_update (db : DB.t) (spool_id : Z) (f : Form.t) :
    reachable db -> reachable (fst (update_with spool_id f db))
| reachable_import (db : DB.t) (tag : string) :
    reachable db -> reachable (import_row tag db).

(** What a snapshot and an event have in common. *)
Definition state_fields (st : SpoolState.t)
  : string * string * option string * option string :=
  (SpoolState.stage st, SpoolState.status st, SpoolState.location st,
   SpoolState.note st).

Definition event_fields (e : Event.t)
  : string * string * option string * option string :=
  (Event.stage e, Event.status e, Event.location e, Event.note e).

(** The snapshot of a spool agrees with its latest event: both are absent,
    or both are present with the same stage, status, location and note. *)
Definition snapshot_is_latest (db : DB.t) (spool_id : Z) : Prop :=
  match spool_state db spool_id, latest_event db spool_id with
  | Some st, Some e => state_fields st = event_fields e
  | None, None => True
  | _, _ => False
  end.

(** ** Databases used in the examples *)

Definition db_tags : DB.t :=
  import_rows ["SP-001"; "SP-002"; "AX-100"] DB.empty.

Definition db_painting : DB.t :=
  fst (update_spool 1 "PINTURA" "PENDENTE" "" "" 10 db_tags).

(** ** The rule of the specification, for comparison *)

(** The position of a stage in [STAGE_ORDER]. *)
Definition stage_rank (s : Stage) : Z :=
  match s with
  | FABRICACAO => 0
  | LOGISTICA1 => 1
  | PINTURA => 2
  | LOGISTICA2 => 3
  | BORDO => 4
  end.

(** The specification's stage rule: from [cur] a transition may stay, go
    one stage forward or one stage back.  [update_spool] does not consult
    it. *)
Definition one_step_rule (cur new : Stage) : bool :=
  (stage_rank cur - 1 <=? stage_rank new) &&
  (stage_rank new <=? stage_rank cur + 1).

(* ================================================================== *)
(** * Users, sessions and pages *)

(** The one-character string of a code point, for the characters a
    literal cannot hold. *)
Definition chr (n : N) : string := String (ascii_of_N n) "".
Definition dq : string := chr 34.
Definition nl : string := chr 10.

Module User.
Record t : Type := mk {
  id : Z;
  username : string;
  password_hash : string;
  role : string
}.
End User.

(** [init_db] on the table [users]; [admin_hash] is what
    [pwd_context.hash("admin123")] returns if it is called (the hash is
    salted, so it is an input). *)
Definition init_db (admin_hash : string) (users : list User.t)
  : list User.t :=
  match find (fun u => String.eqb (User.username u) "admin") users with
  | Some _ => users
  | None =>
      users ++
      [User.mk (next_rowid (map User.id users)) "admin" admin_hash "ADMIN"]
  end.

(** The session is the signed cookie; the handlers use its key ["uid"]
    only, so a session is the value under that key, if any. *)
Definition session : Type := option Z.

(** [current_user]: [if not uid] holds for a missing key and for 0. *)
Definition current_user (s : session) (users : list User.t)
  : option User.t :=
  match s with
  | None => None
  | Some uid =>
      if uid =? 0 then None else find (fun u => User.id u =? uid) users
  end.

(** What a handler that builds pages answers with: a page, or one of the
    other responses. *)
Inductive Reply : Type :=
| HTMLResponse (content : string)
| Plain (r : Response).

(** The count of [home]: the number of rows of [spool_states] whose
    [status] is the value of [Status.BLOQUEADO]. *)
Definition total_blocked (db : DB.t) : Z :=
  Z.of_nat
    (List.length
       (filter
          (fun st => String.eqb (SpoolState.status st)
                       (Status_value BLOQUEADO))
          (DB.spool_states db))).

(** [home], the handler of [GET /]. A [RedirectResponse] without a status
    code has 307. *)
Definition home (s : session) (users : list User.t) (db : DB.t) : Reply :=
  match current_user s users with
  | None => Plain (RedirectResponse "/login" 307)
  | Some _ =>
      HTMLResponse
        (String.concat ""
           [nl; "        <h2>Painel</h2>"; nl; "        <p>Bloqueados: ";
            str_of_int (total_blocked db); "</p>"; nl; "        <a href=";
            dq; "/spools"; dq; ">Buscar Spools</a>"; nl;
            "        <br><br>"; nl; "        <a href="; dq; "/logout"; dq;
            ">Sair</a>"; nl; "        "])
  end.

(** [login], the handler of [POST /login]; [verify] is
    [pwd_context.verify]. The result is the session after the request and
    the reply. *)
Definition login (verify : string -> string -> bool)
  (username password : string) (s : session) (users : list User.t)
  : session * Reply :=
  match find (fun u => String.eqb (User.username u) username) users with
  | None =>
      (s, HTMLResponse (String.concat "" ["Login inv"; chr 225; "lido"]))
  | Some user =>
      if negb (verify password (User.password_hash user))
      then
        (s, HTMLResponse (String.concat "" ["Login inv"; chr 225; "lido"]))
      else (Some (User.id user), Plain (RedirectResponse "/" 303))
  end.

(** [logout], the handler of [GET /logout]. *)
Definition logout (s : session) : session * Reply :=
  (None, Plain (RedirectResponse "/login" 307)).

(** [spools], the handler of [GET /spools], with the page it builds from
    its rows. *)
Definition spools (q : string) (db : DB.t) : Reply :=
  match spools_query q db with
  | Raise e => Plain (Uncaught e)
  | Ok rows =>
      let html := "<h2>Spools</h2>" in
      let html :=
        String.append html
          (String.concat ""
             [nl; "    <form>"; nl; "        <input name="; dq; "q"; dq;
              ">"; nl; "        <button>Buscar</button>"; nl;
              "    </form>"; nl; "    "]) in
      HTMLResponse
        (fold_left
           (fun html s =>
              String.append html
                (String.concat ""
                   ["<a href="; dq; "/spool/"; str_of_int (Spool.id s); dq;
                    ">"; Spool.tag s; "</a><br>"]))
           rows html)
  end.

(** The members of the enumerations in the order [for s in Stage] and
    [for s in Status] visit them. *)
Definition Stage_members : list Stage :=
  [FABRICACAO; LOGISTICA1; PINTURA; LOGISTICA2; BORDO].

Definition Status_members : list Status := [PENDENTE; LIBERADO; BLOQUEADO].

(** [spool_detail], the handler of [GET /spool/{spool_id}]. *)
Definition spool_detail (spool_id : Z) (db : DB.t) : Reply :=
  match query_get db spool_id with
  | None =>
      Plain (if sqlite_int spool_id then HTTPException 404
             else Uncaught OverflowError)
  | Some spool =>
      let qr_url := String.concat "" ["/qr/"; Spool.tag spool; ".png"] in
      HTMLResponse
        (String.concat ""
           [nl; "        <h2>"; Spool.tag spool; "</h2>"; nl;
            "        <img src="; dq; qr_url; dq; " width="; dq; "200"; dq;
            "><br><br>"; nl; "        <form method="; dq; "post"; dq;
            " action="; dq; "/update/"; str_of_int spool_id; dq; ">"; nl;
            "            Stage:"; nl; "            <select name="; dq;
            "stage"; dq; ">"; nl; "                ";
            String.concat ""
              (map (fun s =>
                      String.concat ""
                        ["<option>"; Stage_value s; "</option>"])
                 Stage_members);
            nl; "            </select><br>"; nl; "            Status:"; nl;
            "            <select name="; dq; "status"; dq; ">"; nl;
            "                ";
            String.concat ""
              (map (fun s =>
                      String.concat ""
                        ["<option>"; Status_value s; "</option>"])
                 Status_members);
            nl; "            </select><br>"; nl; "            Localiza";
            chr 231; chr 227; "o: <input name="; dq; "location"; dq;
            "><br>"; nl; "            Obs: <input name="; dq; "note"; dq;
            "><br>"; nl; "            <button>Salvar</button>"; nl;
            "        </form>"; nl; "        <br><a href="; dq; "/spools";
            dq; ">Voltar</a>"; nl; "        "])
  end.

(* ================================================================== *)
(** * Import from a worksheet *)

(** The value of a cell, as far as [import_excel] looks at it: [None], a
    string, an integer, a boolean, or a value of another type (a float, a
    date) given by its truth value and its [str()]. *)
Inductive CellValue : Type :=
| VNone
| VStr (s : string)
| VInt (n : Z)
| VBool (b : bool)
| VOther (truth : bool) (text : string).

(** [if val] *)
Definition truthy (v : CellValue) : bool :=
  match v with
  | VNone => false
  | VStr s => negb (String.eqb s "")
  | VInt n => negb (n =? 0)
  | VBool b => b
  | VOther truth _ => truth
  end.

(** [str(val)] *)
Definition py_str (v : CellValue) : string :=
  match v with
  | VNone => "None"
  | VStr s => s
  | VInt n => str_of_int n
  | VBool true => "True"
  | VBool false => "False"
  | VOther _ text => text
  end.

(** The worksheet as [import_excel] reads it: [ws.max_row],
    [ws.max_column] and [ws.cell(r, c).value].  A cell that holds nothing
    reads [None]; in particular every cell below [max_row]. *)
Module Worksheet.
Record t : Type := mk {
  max_row : Z;
  max_column : Z;
  cell : Z -> Z -> CellValue
}.
End Worksheet.

(** [range(a, b)] *)
Definition py_range (a b : Z) : list Z :=
  map (fun i => a + Z.of_nat i) (seq 0 (Z.to_nat (b - a))).

(** [s.lower()] on code points below 256. *)
Definition py_lower_char (c : ascii) : ascii :=
  let n := N_of_ascii c in
  if ((65 <=? n) && (n <=? 90) ||
      (192 <=? n) && (n <=? 222) && negb (n =? 215))%N
  then ascii_of_N (n + 32)
  else c.

Fixpoint py_lower (s : string) : string :=
  match s with
  | EmptyString => EmptyString
  | String c s' => String (py_lower_char c) (py_lower s')
  end.

(** [c.isspace()] on code points below 256. *)
Definition py_isspace (c : ascii) : bool :=
  let n := N_of_ascii c in
  ((9 <=? n) && (n <=? 13) || (28 <=? n) && (n <=? 32) ||
   (n =? 133) || (n =? 160))%N.

Fixpoint py_lstrip (s : string) : string :=
  match s with
  | EmptyString => EmptyString
  | String c s' => if py_isspace c then py_lstrip s' else s
  end.

Fixpoint py_rstrip (s : string) : string :=
  match s with
  | EmptyString => EmptyString
  | String c s' =>
      match py_rstrip s' with
      | EmptyString => if py_isspace c then EmptyString else String c ""
      | r => String c r
      end
  end.

(** [s.strip()] *)
Definition py_strip (s : string) : string := py_rstrip (py_lstrip s).

(** The test of the header search:
    [value and "isom" in str(value).lower()]. *)
Definition is_header_cell (v : CellValue) : bool :=
  truthy v && is_substring "isom" (py_lower (py_str v)).

(** The header search of [import_excel]: the values of [col] and
    [header_row] after the two loops, [None] if they were never assigned.
<<
    for r in range(1, 10):
        for c in range(1, ws.max_column + 1):
            if ...:
                col = c
                header_row = r
                break
>>
    [break] leaves the inner loop only. *)
Definition find_header (ws : Worksheet.t) : option (Z * Z) :=
  fold_left
    (fun found r =>
       match
         find (fun c => is_header_cell (Worksheet.cell ws r c))
           (py_range 1 (Worksheet.max_column ws + 1))
       with
       | Some c => Some (c, r)
       | None => found
       end)
    (py_range 1 10) None.

(** The tags the row loop of [import_excel] reads from column [col] below
    [header_row]. *)
Definition sheet_tags (ws : Worksheet.t) (col header_row : Z)
  : list string :=
  flat_map
    (fun row =>
       let val := Worksheet.cell ws row col in
       if truthy val then [py_strip (py_str val)] else [])
    (py_range (header_row + 1) (Worksheet.max_row ws + 1)).

Inductive ImportReply : Type :=
| UnboundLocalError
| Imported (status : string).

(** [import_excel], the handler of [GET /import_excel], on the active
    sheet of the workbook at [path]. Without a header, [header_row] is
    read before it was assigned. *)
Definition import_excel (ws : Worksheet.t) (db : DB.t)
  : DB.t * ImportReply :=
  match find_header ws with
  | None => (db, UnboundLocalError)
  | Some (col, header_row) =>
      (import_rows (sheet_tags ws col header_row) db,
       Imported "Importado com sucesso")
  end.

(** [evolves db db']: requests to the handlers that write the three
    tables take the database from [db] to [db']. *)
Inductive evolves (db : DB.t) : DB.t -> Prop :=
| evolves_refl : evolves db db
| evolves_update (db' : DB.t) (spool_id : Z) (f : Form.t) :
    evolves db db' -> evolves db (fst (update_with spool_id f db'))
| evolves_import (db' : DB.t) (tag : string) :
    evolves db db' -> evolves db (import_row tag db').

(** A worksheet with the header in row 1, column 2, over five rows. *)
Definition ws_example : Worksheet.t :=
  Worksheet.mk 5 2
    (fun r c =>
       if (c =? 2) then
         if r =? 1 then VStr "Isometrico"
         else if r =? 2 then VStr " SP-001 "
         else if r =? 3 then VInt 42
         else if r =? 4 then VStr "SP-001"
         else if r =? 5 then VStr "   "
         else VNone
       else VNone).

(** A string with its ASCII capitals turned into small letters. *)
Fixpoint fold_case (s : string) : string :=
  match s with
  | EmptyString => EmptyString
  | String c s' => String (tolower c) (fold_case s')
  end.

(* ================================================================== *)
(** * Properties *)

(** ** The stage order *)

Lemma Stage_eqb_eq (a b : Stage) : Stage_eqb a b = true <-> a = b.
Proof.
  split.
  - destruct a, b; simpl; intro H; try reflexivity; discriminate H.
  - intros ->. destruct b; reflexivity.
Qed.

Lemma list_index_STAGE_ORDER (s : Stage) :
  list_index Stage_eqb s STAGE_ORDER = Ok (stage_rank s).
Proof. destruct s; reflexivity. Qed.

(** C9. [prev_stage] returns on every stage, never raising: for the stage
    at position [i] of [STAGE_ORDER] it returns the stage at position
    [i - 1], and [None] at position 0; [None] is returned for
    [FABRICACAO] and for no other stage. *)
Theorem prev_stage_is_predecessor :
  STAGE_ORDER = [FABRICACAO; LOGISTICA1; PINTURA; LOGISTICA2; BORDO] /\
  (forall s : Stage,
      exists i : nat,
        nth_error STAGE_ORDER i = Some s /\
        prev_stage s =
        Ok (match i with O => None | S j => nth_error STAGE_ORDER j end)) /\
  (forall s : Stage, prev_stage s = Ok None <-> s = FABRICACAO) /\
  prev_stage LOGISTICA1 = Ok (Some FABRICACAO) /\
  prev_stage PINTURA = Ok (Some LOGISTICA1) /\
  prev_stage LOGISTICA2 = Ok (Some PINTURA) /\
  prev_stage BORDO = Ok (Some LOGISTICA2).
Proof.
  split; [reflexivity|].
  split.
  - intro s. exists (Z.to_nat (stage_rank s)).
    destruct s; split; reflexivity.
  - split.
    + intro s; split.
      * destruct s; simpl; intro H; try reflexivity; discriminate H.
      * intros ->. reflexivity.
    + repeat split.
Qed.

(** ** Lists as tables *)

Section Tables.
Context {A : Type}.
Implicit Types (l : list A) (p : A -> bool).

Lemma last_opt_snoc l (x : A) : last_opt (l ++ [x]) = Some x.
Proof.
  induction l as [|a l IH]; [reflexivity|].
  simpl. destruct (l ++ [x]) eqn:E; [destruct l; discriminate E|exact IH].
Qed.

Lemma last_opt_In l (x : A) : last_opt l = Some x -> In x l.
Proof.
  induction l as [|a l IH]; [discriminate|].
  destruct l as [|b l].
  - simpl. intros [= ->]. now left.
  - intro H. right. apply IH. exact H.
Qed.

Lemma last_opt_None l : last_opt l = None <-> l = [].
Proof.
  split; [|intros ->; reflexivity].
  induction l as [|a l IH]; [reflexivity|].
  destruct l as [|b l]; [discriminate|].
  intro H. apply IH in H. discriminate H.
Qed.

Lemma find_snoc p l (x : A) :
  find p (l ++ [x]) =
  match find p l with
  | Some a => Some a
  | None => if p x then Some x else None
  end.
Proof.
  induction l as [|a l IH]; simpl; [reflexivity|].
  destruct (p a); [reflexivity|exact IH].
Qed.

Lemma find_None_filter p l : find p l = None <-> filter p l = [].
Proof.
  induction l as [|a l IH]; simpl; [tauto|].
  destruct (p a); [split; discriminate|exact IH].
Qed.

Lemma find_Some_holds p l (a : A) : find p l = Some a -> p a = true.
Proof. intro H. apply find_some in H. tauto. Qed.

(** An update of the rows that satisfy [p], by a function that keeps
    them satisfying [p], changes what [find p] returns accordingly. *)
Lemma find_map_same p (g : A -> A) l :
  (forall a, p (g a) = p a) ->
  find p (map (fun a => if p a then g a else a) l) =
  option_map g (find p l).
Proof.
  intro Hg. induction l as [|a l IH]; simpl; [reflexivity|].
  destruct (p a) eqn:E.
  - rewrite Hg, E. reflexivity.
  - rewrite E. exact IH.
Qed.

(** ... and leaves alone a search that the updated rows never answer. *)
Lemma find_map_other p p' (g : A -> A) l :
  (forall a, p a = true -> p' a = false) ->
  (forall a, p a = true -> p' (g a) = false) ->
  find p' (map (fun a => if p a then g a else a) l) = find p' l.
Proof.
  intros H1 H2. induction l as [|a l IH]; simpl; [reflexivity|].
  destruct (p a) eqn:E.
  - rewrite (H2 a E), (H1 a E). exact IH.
  - destruct (p' a); [reflexivity|exact IH].
Qed.

Lemma filter_map_length p (g : A -> A) l :
  (forall a, p (g a) = p a) ->
  List.length (filter p (map (fun a => if p a then g a else a) l)) =
  List.length (filter p l).
Proof.
  intro Hg. induction l as [|a l IH]; simpl; [reflexivity|].
  destruct (p a) eqn:E.
  - rewrite Hg, E. simpl. now rewrite IH.
  - rewrite E. exact IH.
Qed.

Lemma filter_map_other p p' (g : A -> A) l :
  (forall a, p a = true -> p' a = false) ->
  (forall a, p a = true -> p' (g a) = false) ->
  filter p' (map (fun a => if p a then g a else a) l) = filter p' l.
Proof.
  intros H1 H2. induction l as [|a l IH]; simpl; [reflexivity|].
  destruct (p a) eqn:E.
  - rewrite (H2 a E), (H1 a E). exact IH.
  - destruct (p' a); [now rewrite IH|exact IH].
Qed.
End Tables.

(** ** Row keys *)

Lemma fold_left_max_ge (l : list Z) (a : Z) :
  a <= fold_left Z.max l a /\
  (forall x, In x l -> x <= fold_left Z.max l a).
Proof.
  revert a. induction l as [|b l IH]; intro a; simpl.
  - split; [lia|intros x []].
  - destruct (IH (Z.max a b)) as [H1 H2]. split; [lia|].
    intros x [<-|Hx]; [lia|auto].
Qed.

(** A fresh key is larger than every key in use. *)
Lemma next_rowid_fresh (ids : list Z) (i : Z) :
  In i ids -> i < next_rowid ids.
Proof.
  destruct ids as [|a l]; [intros []|].
  unfold next_rowid. destruct (fold_left_max_ge l a) as [H1 H2].
  intros [<-|Hi]; [lia|]. specialize (H2 i Hi). lia.
Qed.

(** ** One update *)

Section OneUpdate.
Variables (db : DB.t) (spool_id : Z).
Variables (stage status location note : string) (now : Z).

Let db' : DB.t :=
  fst (update_spool spool_id stage status location note now db).

Let ev : Event.t :=
  Event.mk (next_rowid (map Event.id (DB.events db))) spool_id None now
    "UPDATE" stage status (Some location) (Some note).

Lemma query_get_id (s : Spool.t) :
  query_get db spool_id = Some s -> Spool.id s = spool_id.
Proof.
  intro H. apply find_Some_holds in H. now apply Z.eqb_eq in H.
Qed.

Lemma update_spool_missing :
  query_get db spool_id = None ->
  update_spool spool_id stage status location note now db =
  (db,
   if sqlite_int spool_id then HTTPException 404
   else Uncaught OverflowError).
Proof. unfold update_spool. now intros ->. Qed.

Lemma update_spool_spools : DB.spools db' = DB.spools db.
Proof.
  unfold db', update_spool. now destruct (query_get db spool_id).
Qed.

Lemma update_spool_response :
  query_get db spool_id <> None ->
  snd (update_spool spool_id stage status location note now db) =
  RedirectResponse (String.append "/spool/" (str_of_int spool_id)) 303.
Proof.
  unfold update_spool. destruct (query_get db spool_id); [reflexivity|].
  intro H. now contradiction H.
Qed.

Lemma update_spool_events :
  query_get db spool_id <> None ->
  DB.events db' = DB.events db ++ [ev].
Proof.
  unfold db', ev, update_spool.
  destruct (query_get db spool_id) as [s|] eqn:E;
    [|intro H; now contradiction H].
  intros _. apply query_get_id in E. now rewrite E.
Qed.

Lemma update_spool_states :
  query_get db spool_id <> None ->
  DB.spool_states db' =
  match spool_state db spool_id with
  | None =>
      DB.spool_states db ++
      [SpoolState.mk spool_id stage status (Some location) (Some note) now
         None]
  | Some _ =>
      map (fun r =>
             if SpoolState.spool_id r =? spool_id
             then assign_state stage status location note now r
             else r)
          (DB.spool_states db)
  end.
Proof.
  unfold db', update_spool.
  destruct (query_get db spool_id) as [s|] eqn:E;
    [|intro H; now contradiction H].
  intros _. apply query_get_id in E. now rewrite E.
Qed.

(** The snapshot of the updated spool after the update. *)
Lemma update_spool_state :
  query_get db spool_id <> None ->
  spool_state db' spool_id =
  Some match spool_state db spool_id with
       | None =>
           SpoolState.mk spool_id stage status (Some location) (Some note)
             now None
       | Some st => assign_state stage status location note now st
       end.
Proof.
  intro H. unfold spool_state at 1. rewrite (update_spool_states H).
  destruct (spool_state db spool_id) as [st|] eqn:E.
  - unfold spool_state in E.
    rewrite (find_map_same (fun r => SpoolState.spool_id r =? spool_id)).
    + now rewrite E.
    + reflexivity.
  - unfold spool_state in E. rewrite find_snoc, E. simpl.
    now rewrite Z.eqb_refl.
Qed.

(** The snapshots of the other spools are left as they were. *)
Lemma update_spool_state_other (other : Z) :
  other <> spool_id ->
  spool_state db' other = spool_state db other.
Proof.
  intro Hne.
  destruct (query_get db spool_id) as [s|] eqn:E.
  - assert (H : query_get db spool_id <> None) by congruence.
    unfold spool_state at 1. rewrite (update_spool_states H).
    destruct (spool_state db spool_id) as [st|].
    + apply (find_map_other (fun r => SpoolState.spool_id r =? spool_id)).
      * intros a Ha. apply Z.eqb_eq in Ha. apply Z.eqb_neq. congruence.
      * intros a Ha. apply Z.eqb_eq in Ha. apply Z.eqb_neq. simpl.
        congruence.
    + rewrite find_snoc. fold (spool_state db other). simpl.
      destruct (spool_state db other); [reflexivity|].
      destruct (Z.eqb_spec spool_id other); [congruence|reflexivity].
  - unfold db'. now rewrite update_spool_missing.
Qed.

Lemma update_spool_events_other (other : Z) :
  other <> spool_id ->
  spool_events db' other = spool_events db other.
Proof.
  intro Hne. unfold spool_events, db', update_spool.
  destruct (query_get db spool_id) as [s|] eqn:E; [|reflexivity].
  apply query_get_id in E. rewrite E. simpl.
  rewrite filter_app. simpl.
  destruct (Z.eqb_spec spool_id other); [congruence|apply app_nil_r].
Qed.

Lemma update_spool_events_same :
  query_get db spool_id <> None ->
  spool_events db' spool_id = spool_events db spool_id ++ [ev].
Proof.
  intro H. unfold spool_events. rewrite (update_spool_events H).
  rewrite filter_app. simpl. now rewrite Z.eqb_refl.
Qed.

(** The rows of the updated spool: one if it had none, as many as before
    otherwise. *)
Lemma update_spool_state_rows :
  query_get db spool_id <> None ->
  List.length (state_rows db' spool_id) =
  match spool_state db spool_id with
  | None => 1%nat
  | Some _ => List.length (state_rows db spool_id)
  end.
Proof.
  intro H. unfold state_rows at 1. rewrite (update_spool_states H).
  destruct (spool_state db spool_id) as [st|] eqn:E.
  - unfold state_rows.
    apply (filter_map_length (fun r => SpoolState.spool_id r =? spool_id)).
    reflexivity.
  - unfold spool_state in E. apply find_None_filter in E.
    rewrite filter_app, E. simpl. now rewrite Z.eqb_refl.
Qed.

Lemma update_spool_state_rows_other (other : Z) :
  other <> spool_id ->
  state_rows db' other = state_rows db other.
Proof.
  intro Hne.
  destruct (query_get db spool_id) as [s|] eqn:E.
  - assert (H : query_get db spool_id <> None) by congruence.
    unfold state_rows at 1. rewrite (update_spool_states H).
    destruct (spool_state db spool_id) as [st|].
    + apply (filter_map_other (fun r => SpoolState.spool_id r =? spool_id)).
      * intros a Ha. apply Z.eqb_eq in Ha. apply Z.eqb_neq. congruence.
      * intros a Ha. apply Z.eqb_eq in Ha. apply Z.eqb_neq. simpl.
        congruence.
    + rewrite filter_app. simpl.
      destruct (Z.eqb_spec spool_id other); [congruence|apply app_nil_r].
  - unfold db'. now rewrite update_spool_missing.
Qed.
End OneUpdate.

(** ** Claims about one update *)

(** C8. An update of a spool that does not exist, for an identifier that
    SQLite can hold (64 bits, signed), raises [HTTPException(404)] and
    leaves the database as it was: neither [spool_states] nor [events]
    changes.  The route, which may refuse the form before the handler
    runs, fails and changes nothing either. *)
Theorem update_spool_unknown_spool
  (db : DB.t) (spool_id : Z) (stage status location note : string) (now : Z) :
  sqlite_int spool_id = true ->
  query_get db spool_id = None ->
  let r := update_spool spool_id stage status location note now db in
  snd r = HTTPException 404 /\
  fst r = db /\
  DB.spool_states (fst r) = DB.spool_states db /\
  DB.events (fst r) = DB.events db /\
  raised (snd (post_update spool_id stage status location note now db)) =
  true /\
  fst (post_update spool_id stage status location note now db) = db.
Proof.
  intros Hint H r. subst r. unfold post_update.
  rewrite update_spool_missing by exact H. rewrite Hint. simpl.
  repeat split; destruct (String.eqb stage "" || String.eqb status "");
    reflexivity.
Qed.

Lemma update_spool_unknown_spool_witness :
  sqlite_int 7 = true /\
  query_get db_tags 7 = None /\
  snd (update_spool 7 "PINTURA" "PENDENTE" "Yard A" "" 10 db_tags) =
  HTTPException 404 /\
  fst (update_spool 7 "PINTURA" "PENDENTE" "Yard A" "" 10 db_tags) = db_tags.
Proof.
  split; [reflexivity|]. split; [reflexivity|].
  destruct (update_spool_unknown_spool db_tags 7 "PINTURA" "PENDENTE"
              "Yard A" "" 10 eq_refl eq_refl) as (H1 & H2 & _).
  split; assumption.
Defined.

(** C10. The event an update appends has no user and the action
    ["UPDATE"], and its timestamp is the [updated_at] the same update wrote
    to the snapshot (the clock reading of the request); a snapshot the
    update creates has [updated_by] [None], and one it overwrites keeps the
    [updated_by] it had.  The handler takes no session; no input of it
    names a user. *)
Theorem update_spool_records_no_actor
  (db : DB.t) (spool_id : Z) (stage status location note : string) (now : Z) :
  query_get db spool_id <> None ->
  let db' := fst (update_spool spool_id stage status location note now db) in
  exists (e : Event.t) (st : SpoolState.t),
    DB.events db' = DB.events db ++ [e] /\
    Event.user_id e = None /\
    Event.action e = "UPDATE" /\
    spool_state db' spool_id = Some st /\
    Event.ts e = SpoolState.updated_at st /\
    Event.ts e = now /\
    (spool_state db spool_id = None ->
     SpoolState.updated_by st = None /\
     DB.spool_states db' = DB.spool_states db ++ [st]) /\
    (forall st0, spool_state db spool_id = Some st0 ->
                 SpoolState.updated_by st = SpoolState.updated_by st0).
Proof.
  intros H db'. subst db'.
  eexists. eexists.
  split; [now apply update_spool_events|].
  split; [reflexivity|]. split; [reflexivity|].
  split; [now apply update_spool_state|].
  rewrite update_spool_states by exact H.
  destruct (spool_state db spool_id) as [st0|]; simpl.
  - repeat split; try discriminate. now intros st1 [= <-].
  - repeat split. discriminate.
Qed.

Lemma update_spool_records_no_actor_witness :
  query_get db_tags 2 <> None /\
  exists (e : Event.t) (st : SpoolState.t),
    DB.events (fst (update_spool 2 "PINTURA" "LIBERADO" "Yard A" "" 42 db_tags))
    = DB.events db_tags ++ [e] /\
    Event.user_id e = None /\
    Event.action e = "UPDATE" /\
    SpoolState.updated_by st = None /\
    Event.ts e = SpoolState.updated_at st.
Proof.
  assert (H : query_get db_tags 2 <> None) by (vm_compute; discriminate).
  split; [exact H|].
  destruct (update_spool_records_no_actor db_tags 2 "PINTURA" "LIBERADO"
              "Yard A" "" 42 H)
    as (e & st & H1 & H2 & H3 & _ & H5 & _ & H7 & _).
  exists e, st. repeat split; try assumption.
  apply H7. reflexivity.
Defined.

(** C4. Two updates of one spool with the same form, one after the other:
    the log grows by two events with different identifiers and the same
    stage, status, location and note, while the second update leaves the
    stage, status, location and note of the snapshot (and every other
    spool's snapshot) as the first one wrote them.  Only [updated_at]
    follows the clock. *)
Theorem update_spool_twice
  (db : DB.t) (spool_id : Z) (stage status location note : string)
  (now1 now2 : Z) :
  query_get db spool_id <> None ->
  let db1 := fst (update_spool spool_id stage status location note now1 db) in
  let db2 := fst (update_spool spool_id stage status location note now2 db1) in
  (exists e1 e2 : Event.t,
      DB.events db2 = DB.events db ++ [e1; e2] /\
      Event.id e1 <> Event.id e2 /\
      event_fields e1 = event_fields e2) /\
  (exists st1 st2 : SpoolState.t,
      spool_state db1 spool_id = Some st1 /\
      spool_state db2 spool_id = Some st2 /\
      state_fields st1 = (stage, status, Some location, Some note) /\
      state_fields st2 = state_fields st1 /\
      SpoolState.updated_by st2 = SpoolState.updated_by st1) /\
  (forall other, other <> spool_id ->
                 spool_state db2 other = spool_state db1 other) /\
  List.length (DB.spool_states db2) = List.length (DB.spool_states db1).
Proof.
  intros H db1 db2.
  assert (H1 : query_get db1 spool_id <> None).
  { unfold query_get, db1. rewrite update_spool_spools. exact H. }
  assert (S1 := @update_spool_state db spool_id stage status location note
                  now1 H).
  fold db1 in S1.
  assert (S2 := @update_spool_state db1 spool_id stage status location note
                  now2 H1).
  fold db2 in S2. rewrite S1 in S2.
  split; [|split; [|split]].
  - assert (E1 := @update_spool_events db spool_id stage status location
                    note now1 H).
    assert (E2 := @update_spool_events db1 spool_id stage status location
                    note now2 H1).
    fold db1 in E1. fold db2 in E2. rewrite E1 in E2.
    rewrite <- app_assoc in E2. simpl in E2.
    eexists. eexists. split; [exact E2|]. split; [|reflexivity].
    simpl. rewrite map_app. simpl.
    match goal with
    | |- ?a <> next_rowid ?l => assert (a < next_rowid l); [|lia]
    end.
    apply next_rowid_fresh, in_or_app. right. now left.
  - eexists. eexists.
    split; [exact S1|]. split; [exact S2|].
    destruct (spool_state db spool_id); repeat split.
  - intros other Hne. now apply update_spool_state_other.
  - unfold db2. rewrite update_spool_states by exact H1.
    fold db1. rewrite S1. now rewrite length_map.
Qed.

Lemma update_spool_twice_witness :
  query_get db_tags 1 <> None /\
  exists e1 e2 : Event.t,
    DB.events
      (fst (update_spool 1 "PINTURA" "PENDENTE" "Yard A" "" 11
              (fst (update_spool 1 "PINTURA" "PENDENTE" "Yard A" "" 10
                      db_tags)))) =
    DB.events db_tags ++ [e1; e2] /\
    Event.id e1 <> Event.id e2.
Proof.
  assert (H : query_get db_tags 1 <> None) by (vm_compute; discriminate).
  split; [exact H|].
  destruct (update_spool_twice db_tags 1 "PINTURA" "PENDENTE" "Yard A" ""
              10 11 H) as ((e1 & e2 & H1 & H2 & _) & _).
  exists e1, e2. split; assumption.
Defined.

(** ** Stage order and enumeration membership in [update_spool] *)

(** A spool at PINTURA is moved to BORDO, past LOGISTICA2: the request is
    answered with the redirect and the snapshot is at BORDO.  The
    one-step rule forbids this transition. *)
Lemma painting_to_bordo_accepted :
  option_map SpoolState.stage (spool_state db_painting 1) =
  Some (Stage_value PINTURA) /\
  one_step_rule PINTURA BORDO = false /\
  let r :=
    update_spool 1 (Stage_value BORDO) "PENDENTE" "" "" 11 db_painting in
  raised (snd r) = false /\
  snd r = RedirectResponse "/spool/1" 303 /\
  option_map SpoolState.stage (spool_state (fst r) 1) =
  Some (Stage_value BORDO).
Proof. vm_compute. repeat split. Qed.

(** C2, as the handler has it. [update_spool] does not look at the stage
    the spool is in: whatever stage [cur] the snapshot holds and whatever
    stage [new] is asked for (one step or several, forward or backward),
    the update of an existing spool is answered with the redirect and the
    snapshot is at [new].  From PINTURA this holds for BORDO as it does
    for LOGISTICA1 and LOGISTICA2. *)
Theorem update_spool_ignores_stage_order
  (db : DB.t) (spool_id : Z) (st : SpoolState.t) (cur new : Stage)
  (status location note : string) (now : Z) :
  query_get db spool_id <> None ->
  spool_state db spool_id = Some st ->
  SpoolState.stage st = Stage_value cur ->
  let r :=
    update_spool spool_id (Stage_value new) status location note now db in
  raised (snd r) = false /\
  option_map SpoolState.stage (spool_state (fst r) spool_id) =
  Some (Stage_value new).
Proof.
  intros H Hst _ r. subst r. split.
  - rewrite update_spool_response by exact H. reflexivity.
  - rewrite update_spool_state by exact H. rewrite Hst. reflexivity.
Qed.

Lemma update_spool_ignores_stage_order_witness :
  query_get db_painting 1 <> None /\
  option_map SpoolState.stage (spool_state db_painting 1) =
  Some (Stage_value PINTURA) /\
  raised (snd (update_spool 1 (Stage_value BORDO) "PENDENTE" "" "" 11
                 db_painting)) = false /\
  raised (snd (update_spool 1 (Stage_value LOGISTICA1) "PENDENTE" "" "" 11
                 db_painting)) = false /\
  raised (snd (update_spool 1 (Stage_value LOGISTICA2) "PENDENTE" "" "" 11
                 db_painting)) = false.
Proof.
  assert (H : query_get db_painting 1 <> None) by (vm_compute; discriminate).
  split; [exact H|].
  split; [reflexivity|].
  split; [|split].
  - exact (proj1 (@update_spool_ignores_stage_order db_painting 1 _ PINTURA
                    BORDO "PENDENTE" "" "" 11 H eq_refl eq_refl)).
  - exact (proj1 (@update_spool_ignores_stage_order db_painting 1 _ PINTURA
                    LOGISTICA1 "PENDENTE" "" "" 11 H eq_refl eq_refl)).
  - exact (proj1 (@update_spool_ignores_stage_order db_painting 1 _ PINTURA
                    LOGISTICA2 "PENDENTE" "" "" 11 H eq_refl eq_refl)).
Defined.

(** A stage and a status outside the enumerations, sent to the route, are
    accepted and written to the snapshot and to the log as they came. *)
Lemma free_form_stage_accepted :
  is_stage "SOLDA" = false /\
  is_status "TALVEZ" = false /\
  query_get db_tags 1 <> None /\
  let r := post_update 1 "SOLDA" "TALVEZ" "" "" 10 db_tags in
  raised (snd r) = false /\
  snd r = RedirectResponse "/spool/1" 303 /\
  spool_state (fst r) 1 =
  Some (SpoolState.mk 1 "SOLDA" "TALVEZ" (Some "") (Some "") 10 None) /\
  DB.events (fst r) =
  [Event.mk 1 1 None 10 "UPDATE" "SOLDA" "TALVEZ" (Some "") (Some "")].
Proof. vm_compute. repeat split. discriminate. Qed.

(** C3, as the route has it. The only check on [stage] and [status] is
    that of a required form field: an empty value (which is no member of
    either enumeration) is refused with 422 and nothing is written.  Every
    other pair of strings, members of the enumerations or not, is
    accepted: for an existing spool the request is answered with the 303
    redirect to the page of the spool, and the snapshot and the appended
    event hold the two strings as they came. *)
Theorem post_update_checks_presence_only
  (db : DB.t) (spool_id : Z) (stage status location note : string) (now : Z) :
  query_get db spool_id <> None ->
  let r := post_update spool_id stage status location note now db in
  is_stage "" = false /\
  is_status "" = false /\
  (stage = "" \/ status = "" -> r = (db, RequestValidationError)) /\
  (stage <> "" -> status <> "" ->
   snd r =
   RedirectResponse (String.append "/spool/" (str_of_int spool_id)) 303 /\
   exists (st : SpoolState.t) (e : Event.t),
     spool_state (fst r) spool_id = Some st /\
     SpoolState.stage st = stage /\
     SpoolState.status st = status /\
     DB.events (fst r) = DB.events db ++ [e] /\
     latest_event (fst r) spool_id = Some e /\
     Event.stage e = stage /\
     Event.status e = status).
Proof.
  intros H r. subst r. unfold post_update.
  split; [reflexivity|]. split; [reflexivity|]. split.
  - intros [-> | ->]; simpl; [reflexivity|].
    now rewrite orb_true_r.
  - intros Hs Ht.
    apply String.eqb_neq in Hs. apply String.eqb_neq in Ht.
    rewrite Hs, Ht. simpl. split.
    + now apply update_spool_response.
    + eexists. eexists.
      split; [now apply update_spool_state|].
      split; [now destruct (spool_state db spool_id)|].
      split; [now destruct (spool_state db spool_id)|].
      split; [now apply update_spool_events|].
      unfold latest_event. rewrite update_spool_events_same by exact H.
      rewrite last_opt_snoc. repeat split.
Qed.

Lemma post_update_checks_presence_only_witness :
  query_get db_tags 1 <> None /\
  post_update 1 "" "TALVEZ" "" "" 10 db_tags =
  (db_tags, RequestValidationError) /\
  snd (post_update 1 "SOLDA" "TALVEZ" "" "" 10 db_tags) =
  RedirectResponse "/spool/1" 303.
Proof.
  assert (H : query_get db_tags 1 <> None) by (vm_compute; discriminate).
  split; [exact H|].
  destruct (@post_update_checks_presence_only db_tags 1 "" "TALVEZ" "" ""
              10 H) as (_ & _ & H1 & _).
  destruct (@post_update_checks_presence_only db_tags 1 "SOLDA" "TALVEZ" ""
              "" 10 H) as (_ & _ & _ & H2).
  split; [apply H1; now left|].
  apply H2; discriminate.
Defined.

(** ** The snapshot and the log *)

Lemma StronglySorted_snoc (l : list Z) (x : Z) :
  StronglySorted Z.lt l -> (forall y, In y l -> y < x) ->
  StronglySorted Z.lt (l ++ [x]).
Proof.
  induction l as [|a l IH]; intros Hs Hx; simpl.
  - constructor; constructor.
  - inversion Hs as [|? ? Hl Ha]; subst. constructor.
    + apply IH; [exact Hl|]. intros y Hy. apply Hx. now right.
    + apply Forall_app. split; [exact Ha|].
      constructor; [|constructor]. apply Hx. now left.
Qed.

(** In a table sorted by key, the last row that satisfies [p] has the
    largest key among the rows that satisfy [p]. *)
Lemma last_opt_filter_max {A : Type} (key : A -> Z) (p : A -> bool)
  (l : list A) (e e' : A) :
  StronglySorted Z.lt (map key l) ->
  last_opt (filter p l) = Some e ->
  In e' (filter p l) ->
  key e' <= key e.
Proof.
  induction l as [|a l IH]; simpl; [discriminate|].
  intros Hs. inversion Hs as [|? ? Hl Ha]; subst.
  destruct (p a); [|now apply IH].
  destruct (filter p l) as [|b fl] eqn:F.
  - simpl. intros [= <-] [<-|[]]. lia.
  - intros Hlast Hin. change (last_opt (b :: fl) = Some e) in Hlast.
    destruct Hin as [<-|Hin].
    + apply last_opt_In in Hlast. rewrite <- F in Hlast.
      apply filter_In in Hlast. destruct Hlast as [Hlast _].
      rewrite Forall_forall in Ha.
      specialize (Ha (key e) (in_map key _ _ Hlast)). lia.
    + apply IH; assumption.
Qed.

Lemma import_row_states (tag : string) (db : DB.t) :
  DB.spool_states (import_row tag db) = DB.spool_states db /\
  DB.events (import_row tag db) = DB.events db.
Proof.
  unfold import_row. now destruct (filter_by_tag_first db tag).
Qed.

(** Event identifiers grow along the log. *)
Lemma reachable_events_sorted (db : DB.t) :
  reachable db -> StronglySorted Z.lt (map Event.id (DB.events db)).
Proof.
  induction 1 as [|db sid f _ IH|db tag _ IH].
  - constructor.
  - unfold update_with.
    destruct (query_get db sid) as [s|] eqn:E.
    + rewrite update_spool_events by congruence.
      rewrite map_app. simpl. apply StronglySorted_snoc; [exact IH|].
      intros y. apply next_rowid_fresh.
    + now rewrite update_spool_missing.
  - now rewrite (proj2 (import_row_states tag db)).
Qed.

Lemma update_spool_keeps_snapshot_is_latest
  (db : DB.t) (spool_id : Z) (f : Form.t) (other : Z) :
  snapshot_is_latest db other ->
  snapshot_is_latest (fst (update_with spool_id f db)) other.
Proof.
  unfold update_with. intro Hinv.
  destruct (query_get db spool_id) as [s|] eqn:E;
    [|now rewrite update_spool_missing].
  assert (H : query_get db spool_id <> None) by congruence.
  unfold snapshot_is_latest, latest_event.
  destruct (Z.eq_dec other spool_id) as [->|Hne].
  - rewrite update_spool_state, update_spool_events_same by exact H.
    rewrite last_opt_snoc.
    now destruct (spool_state db spool_id).
  - rewrite update_spool_state_other, update_spool_events_other by exact Hne.
    exact Hinv.
Qed.

(** C1. In every database the handlers can produce, and for every spool:
    the snapshot and the log agree.  Either the spool has neither a
    snapshot nor an event, or it has both, and the stage, status, location
    and note of the snapshot are those of the spool's latest event, the one
    with the largest identifier among the spool's events. *)
Theorem snapshot_equals_latest_event (db : DB.t) (spool_id : Z) :
  reachable db ->
  snapshot_is_latest db spool_id /\
  (forall e e' : Event.t,
      latest_event db spool_id = Some e ->
      In e' (spool_events db spool_id) ->
      Event.id e' <= Event.id e).
Proof.
  intro Hr. split.
  - induction Hr as [|db sid f _ IH|db tag _ IH].
    + exact I.
    + now apply update_spool_keeps_snapshot_is_latest.
    + unfold snapshot_is_latest, latest_event, spool_state, spool_events.
      destruct (import_row_states tag db) as [-> ->]. exact IH.
  - intros e e'. unfold latest_event, spool_events.
    apply last_opt_filter_max. now apply reachable_events_sorted.
Qed.

Lemma reachable_db_painting : reachable db_painting.
Proof.
  exact (reachable_update 1 (Form.mk "PINTURA" "PENDENTE" "" "" 10)
           (reachable_import "AX-100"
              (reachable_import "SP-002"
                 (reachable_import "SP-001" reachable_empty)))).
Qed.

Lemma snapshot_equals_latest_event_witness :
  reachable db_painting /\
  snapshot_is_latest db_painting 1 /\
  option_map state_fields (spool_state db_painting 1) =
  Some ("PINTURA", "PENDENTE", Some "", Some "").
Proof.
  split; [exact reachable_db_painting|].
  split; [|reflexivity].
  exact (proj1 (@snapshot_equals_latest_event db_painting 1
                  reachable_db_painting)).
Defined.

(** The primary key of [spool_states] holds in every reachable database:
    a spool has at most one snapshot row. *)
Lemma reachable_state_rows (db : DB.t) (spool_id : Z) :
  reachable db -> (List.length (state_rows db spool_id) <= 1)%nat.
Proof.
  induction 1 as [|db sid f _ IH|db tag _ IH].
  - simpl. lia.
  - unfold update_with.
    destruct (Z.eq_dec spool_id sid) as [->|Hne].
    + destruct (query_get db sid) as [s|] eqn:E;
        [|now rewrite update_spool_missing].
      rewrite update_spool_state_rows by congruence.
      now destruct (spool_state db sid).
    + now rewrite update_spool_state_rows_other.
  - unfold state_rows. now rewrite (proj1 (import_row_states tag db)).
Qed.

(** ** A run of updates on one spool *)

Lemma update_spool_keeps_spool
  (db : DB.t) (spool_id : Z) (stage status location note : string) (now : Z)
  (other : Z) :
  query_get (fst (update_spool spool_id stage status location note now db))
    other = query_get db other.
Proof. unfold query_get. now rewrite update_spool_spools. Qed.

Lemma spool_state_rows (db : DB.t) (spool_id : Z) :
  spool_state db spool_id = None <-> state_rows db spool_id = [].
Proof. apply find_None_filter. Qed.

Lemma update_seq_cons (spool_id : Z) (f : Form.t) (rest : list Form.t)
  (db : DB.t) :
  fst (update_seq spool_id (f :: rest) db) =
  fst (update_seq spool_id rest (fst (update_with spool_id f db))).
Proof.
  simpl. destruct (update_with spool_id f db) as [db1 r]. simpl.
  now destruct (update_seq spool_id rest db1).
Qed.

Lemma assign_state_twice
  (stage status location note : string) (now : Z)
  (stage' status' location' note' : string) (now' : Z) (r : SpoolState.t) :
  assign_state stage' status' location' note' now'
    (assign_state stage status location note now r) =
  assign_state stage' status' location' note' now' r.
Proof. reflexivity. Qed.

(** The table [spool_states] after a run of updates of one existing spool:
    the table before it with the row of the spool overwritten by the last
    request, or with a row of the last request added when the spool had
    none. *)
Lemma update_seq_states (spool_id : Z) (forms : list Form.t) (f : Form.t) :
  forall db : DB.t,
    query_get db spool_id <> None ->
    last_opt forms = Some f ->
    DB.spool_states (fst (update_seq spool_id forms db)) =
    match spool_state db spool_id with
    | Some _ =>
        map (fun r =>
               if SpoolState.spool_id r =? spool_id
               then assign_state (Form.stage f) (Form.status f)
                      (Form.location f) (Form.note f) (Form.now f) r
               else r)
            (DB.spool_states db)
    | None =>
        DB.spool_states db ++
        [SpoolState.mk spool_id (Form.stage f) (Form.status f)
           (Some (Form.location f)) (Some (Form.note f)) (Form.now f) None]
    end.
Proof.
  induction forms as [|g rest IH]; intros db H Hlast; [discriminate|].
  rewrite update_seq_cons. destruct rest as [|g' rest].
  - simpl in Hlast. injection Hlast as ->. simpl.
    unfold update_with. now apply update_spool_states.
  - change (last_opt (g' :: rest) = Some f) in Hlast.
    assert (H1 : query_get (fst (update_with spool_id g db)) spool_id
                 <> None).
    { unfold update_with. now rewrite update_spool_keeps_spool. }
    rewrite (IH _ H1 Hlast). unfold update_with.
    rewrite update_spool_state by exact H.
    rewrite update_spool_states by exact H.
    destruct (spool_state db spool_id) as [st|] eqn:E.
    + rewrite map_map. apply map_ext. intro r.
      destruct (SpoolState.spool_id r =? spool_id) eqn:K.
      * simpl. now rewrite K.
      * now rewrite K.
    + rewrite map_app. simpl. rewrite Z.eqb_refl. f_equal.
      rewrite <- (map_id (DB.spool_states db)) at 2.
      apply map_ext_in. intros r Hr.
      unfold spool_state in E. now rewrite (find_none _ _ E r Hr).
Qed.

Lemma find_hd_filter {A : Type} (p : A -> bool) (l : list A) :
  find p l = hd_error (filter p l).
Proof.
  induction l as [|a l IH]; simpl; [reflexivity|].
  destruct (p a); [reflexivity|exact IH].
Qed.

Lemma update_seq_effect (spool_id : Z) (forms : list Form.t) :
  forall db : DB.t,
    query_get db spool_id <> None ->
    let r := update_seq spool_id forms db in
    List.length (spool_events (fst r) spool_id) =
    (List.length (spool_events db spool_id) + List.length forms)%nat /\
    List.length (DB.events (fst r)) =
    (List.length (DB.events db) + List.length forms)%nat /\
    snd r =
    map (fun _ =>
           RedirectResponse (String.append "/spool/" (str_of_int spool_id))
             303) forms /\
    (spool_state db spool_id <> None ->
     List.length (state_rows (fst r) spool_id) =
     List.length (state_rows db spool_id) /\
     List.length (DB.spool_states (fst r)) =
     List.length (DB.spool_states db)) /\
    (forms <> [] -> spool_state db spool_id = None ->
     List.length (state_rows (fst r) spool_id) = 1%nat /\
     List.length (DB.spool_states (fst r)) =
     S (List.length (DB.spool_states db))).
Proof.
  induction forms as [|f rest IH]; intros db H r; subst r.
  - simpl. rewrite !Nat.add_0_r. repeat split; try reflexivity;
      match goal with C : [] <> [] |- _ => now contradiction C end.
  - simpl. unfold update_with at 1 2 3 4 5 6 7.
    destruct (update_spool spool_id (Form.stage f) (Form.status f)
                (Form.location f) (Form.note f) (Form.now f) db)
      as [db1 resp] eqn:U.
    assert (Udb : db1 = fst (update_spool spool_id (Form.stage f)
                               (Form.status f) (Form.location f)
                               (Form.note f) (Form.now f) db))
      by now rewrite U.
    assert (Ur : resp = snd (update_spool spool_id (Form.stage f)
                               (Form.status f) (Form.location f)
                               (Form.note f) (Form.now f) db))
      by now rewrite U.
    assert (H1 : query_get db1 spool_id <> None).
    { rewrite Udb, update_spool_keeps_spool. exact H. }
    assert (S1 : spool_state db1 spool_id <> None).
    { rewrite Udb, update_spool_state by exact H. discriminate. }
    specialize (IH db1 H1). simpl in IH.
    destruct (update_seq spool_id rest db1) as [db2 rs] eqn:V. simpl in *.
    destruct IH as (I1 & I2 & I3 & I4 & _).
    destruct (I4 S1) as [I5 I6]. clear I4.
    assert (E1 : List.length (spool_events db1 spool_id) =
                 S (List.length (spool_events db spool_id))).
    { rewrite Udb, update_spool_events_same by exact H.
      rewrite length_app. simpl. lia. }
    assert (E2 : List.length (DB.events db1) = S (List.length (DB.events db))).
    { rewrite Udb, update_spool_events by exact H.
      rewrite length_app. simpl. lia. }
    assert (R1 := @update_spool_state_rows db spool_id (Form.stage f)
                    (Form.status f) (Form.location f) (Form.note f)
                    (Form.now f) H).
    assert (T1 := @update_spool_states db spool_id (Form.stage f)
                    (Form.status f) (Form.location f) (Form.note f)
                    (Form.now f) H).
    rewrite <- Udb in R1, T1.
    split; [lia|]. split; [lia|].
    split.
    { rewrite I3, Ur, update_spool_response by exact H. reflexivity. }
    split.
    + intro S0. destruct (spool_state db spool_id); [|now contradiction S0].
      rewrite I5, I6, R1, T1, length_map. split; reflexivity.
    + intros _ S0. rewrite S0 in R1, T1.
      rewrite I5, I6, R1, T1, length_app. simpl. split; lia.
Qed.

(** C5. [N >= 1] updates of one existing spool, one after the other: each
    is answered with the redirect, the spool has [N] more events than
    before (so exactly [N] when it had none) and exactly one snapshot row.
    The row is added by the first update if the spool had none, and it is
    overwritten where it stands by the later ones: the table
    [spool_states] is the table before the run with that one row holding
    the values and the clock reading of the last request (the row keeps
    its [updated_by]), or with such a row added at its end. *)
Theorem update_seq_counts (db : DB.t) (spool_id : Z) (forms : list Form.t) :
  query_get db spool_id <> None ->
  (List.length (state_rows db spool_id) <= 1)%nat ->
  (1 <= List.length forms)%nat ->
  let r := update_seq spool_id forms db in
  List.length (spool_events (fst r) spool_id) =
  (List.length (spool_events db spool_id) + List.length forms)%nat /\
  (spool_events db spool_id = [] ->
   List.length (spool_events (fst r) spool_id) = List.length forms) /\
  List.length (state_rows (fst r) spool_id) = 1%nat /\
  List.length (DB.spool_states (fst r)) =
  (List.length (DB.spool_states db) +
   match spool_state db spool_id with None => 1 | Some _ => 0 end)%nat /\
  List.length (snd r) = List.length forms /\
  Forall (fun resp => raised resp = false) (snd r) /\
  (forall f : Form.t,
      last_opt forms = Some f ->
      DB.spool_states (fst r) =
      match spool_state db spool_id with
      | Some _ =>
          map (fun row =>
                 if SpoolState.spool_id row =? spool_id
                 then SpoolState.mk (SpoolState.spool_id row) (Form.stage f)
                        (Form.status f) (Some (Form.location f))
                        (Some (Form.note f)) (Form.now f)
                        (SpoolState.updated_by row)
                 else row)
              (DB.spool_states db)
      | None =>
          DB.spool_states db ++
          [SpoolState.mk spool_id (Form.stage f) (Form.status f)
             (Some (Form.location f)) (Some (Form.note f)) (Form.now f)
             None]
      end /\
      exists st : SpoolState.t,
        state_rows (fst r) spool_id = [st] /\
        SpoolState.spool_id st = spool_id /\
        state_fields st =
        (Form.stage f, Form.status f, Some (Form.location f),
         Some (Form.note f)) /\
        SpoolState.updated_at st = Form.now f /\
        SpoolState.updated_by st =
        match spool_state db spool_id with
        | Some st0 => SpoolState.updated_by st0
        | None => None
        end).
Proof.
  intros H Hrows Hn r.
  destruct (update_seq_effect spool_id forms db H)
    as (E1 & _ & E3 & E4 & E5).
  fold r in E1, E3, E4, E5.
  split; [exact E1|].
  split; [intro E0; now rewrite E1, E0|].
  assert (Hne : forms <> [])
    by (destruct forms; [simpl in Hn; lia|discriminate]).
  assert (Hresp : List.length (snd r) = List.length forms /\
                  Forall (fun resp => raised resp = false) (snd r)).
  { rewrite E3, length_map. split; [reflexivity|].
    apply Forall_forall. intros x Hx. apply in_map_iff in Hx.
    destruct Hx as (? & <- & _). reflexivity. }
  assert (Hone : List.length (state_rows (fst r) spool_id) = 1%nat /\
                 List.length (DB.spool_states (fst r)) =
                 (List.length (DB.spool_states db) +
                  match spool_state db spool_id with
                  | None => 1
                  | Some _ => 0
                  end)%nat).
  { destruct (spool_state db spool_id) as [st|] eqn:S0.
    - destruct E4 as [R T]; [discriminate|].
      assert (state_rows db spool_id <> []).
      { intro C. apply spool_state_rows in C. congruence. }
      destruct (state_rows db spool_id) as [|a [|b l]];
        [congruence| |simpl in Hrows; lia].
      split; [exact R|lia].
    - destruct (E5 Hne eq_refl) as [R T]. split; [exact R|lia]. }
  destruct Hone as [Hone Hlen]. destruct Hresp as [Hr1 Hr2].
  split; [exact Hone|]. split; [exact Hlen|].
  split; [exact Hr1|]. split; [exact Hr2|].
  intros f Hlast.
  assert (Hst := @update_seq_states spool_id forms f db H Hlast).
  fold r in Hst. split; [exact Hst|].
  assert (Hfind : spool_state (fst r) spool_id =
                  Some match spool_state db spool_id with
                       | Some st0 =>
                           assign_state (Form.stage f) (Form.status f)
                             (Form.location f) (Form.note f) (Form.now f)
                             st0
                       | None =>
                           SpoolState.mk spool_id (Form.stage f)
                             (Form.status f) (Some (Form.location f))
                             (Some (Form.note f)) (Form.now f) None
                       end).
  { unfold spool_state at 1. rewrite Hst.
    destruct (spool_state db spool_id) as [st0|] eqn:S0.
    - unfold spool_state in S0.
      rewrite (find_map_same (fun row => SpoolState.spool_id row =? spool_id));
        [now rewrite S0|reflexivity].
    - unfold spool_state in S0. rewrite find_snoc, S0. simpl.
      now rewrite Z.eqb_refl. }
  unfold spool_state in Hfind at 1. rewrite find_hd_filter in Hfind.
  fold (state_rows (fst r) spool_id) in Hfind.
  destruct (state_rows (fst r) spool_id) as [|st [|st' l]];
    [discriminate Hone| |discriminate Hone].
  simpl in Hfind. injection Hfind as Hfind.
  exists st. split; [reflexivity|]. subst st.
  destruct (spool_state db spool_id) as [st0|] eqn:S0; simpl.
  - repeat split. unfold spool_state in S0.
    apply find_Some_holds in S0. now apply Z.eqb_eq in S0.
  - repeat split.
Qed.

Lemma update_seq_counts_witness :
  query_get db_tags 1 <> None /\
  (List.length (state_rows db_tags 1) <= 1)%nat /\
  List.length
    (spool_events
       (fst (update_seq 1
               [Form.mk "FABRICACAO" "PENDENTE" "" "" 10;
                Form.mk "LOGISTICA1" "LIBERADO" "Yard A" "" 20;
                Form.mk "PINTURA" "PENDENTE" "" "" 30] db_tags)) 1) = 3%nat /\
  List.length
    (state_rows
       (fst (update_seq 1
               [Form.mk "FABRICACAO" "PENDENTE" "" "" 10;
                Form.mk "LOGISTICA1" "LIBERADO" "Yard A" "" 20;
                Form.mk "PINTURA" "PENDENTE" "" "" 30] db_tags)) 1) = 1%nat.
Proof.
  assert (H : query_get db_tags 1 <> None) by (vm_compute; discriminate).
  assert (R : (List.length (state_rows db_tags 1) <= 1)%nat)
    by (vm_compute; lia).
  split; [exact H|]. split; [exact R|].
  destruct (@update_seq_counts db_tags 1
              [Form.mk "FABRICACAO" "PENDENTE" "" "" 10;
               Form.mk "LOGISTICA1" "LIBERADO" "Yard A" "" 20;
               Form.mk "PINTURA" "PENDENTE" "" "" 30] H R
              (le_S _ _ (le_S _ _ (le_n 1))))
    as (E & _ & S1 & _).
  split; [exact E|exact S1].
Defined.

(** ** Import by tag *)

Lemma import_row_found (tag : string) (db : DB.t) (s : Spool.t) :
  filter_by_tag_first db tag = Some s -> import_row tag db = db.
Proof. unfold import_row. now intros ->. Qed.

Lemma import_row_resolves (tag : string) (db : DB.t) :
  filter_by_tag_first (import_row tag db) tag =
  match filter_by_tag_first db tag with
  | Some s => Some s
  | None => Some (Spool.mk (next_rowid (map Spool.id (DB.spools db))) tag)
  end.
Proof.
  unfold import_row.
  destruct (filter_by_tag_first db tag) as [s|] eqn:E; [exact E|].
  unfold filter_by_tag_first in *. simpl. rewrite find_snoc, E. simpl.
  now rewrite String.eqb_refl.
Qed.

(** The rows of [spools] that carry [tag]. *)
Lemma import_row_tag_rows (tag : string) (db : DB.t) :
  filter_by_tag_first db tag = None ->
  filter (fun s => String.eqb (Spool.tag s) tag)
    (DB.spools (import_row tag db)) =
  [Spool.mk (next_rowid (map Spool.id (DB.spools db))) tag].
Proof.
  intro E. unfold import_row. rewrite E. simpl.
  unfold filter_by_tag_first in E. apply find_None_filter in E.
  rewrite filter_app, E. simpl. now rewrite String.eqb_refl.
Qed.

Lemma import_row_idempotent (tag : string) (db : DB.t) :
  import_row tag (import_row tag db) = import_row tag db.
Proof.
  destruct (filter_by_tag_first (import_row tag db) tag) as [s|] eqn:E.
  - exact (import_row_found _ _ E).
  - rewrite import_row_resolves in E.
    destruct (filter_by_tag_first db tag); discriminate E.
Qed.

(** C6. [get_or_create_by_tag] called again with the same tag, any number
    of times, returns the spool the first call returned (so the same
    identifier) and leaves the database as the first call left it.  The
    first call adds one row, with a fresh identifier, if no spool carries
    the tag, after which exactly one does; if a spool carries the tag it
    returns that spool and adds nothing. *)
Theorem get_or_create_by_tag_dedup (tag : string) (db : DB.t) (n : nat) :
  let first := get_or_create_by_tag tag db in
  let again :=
    get_or_create_by_tag tag
      (Nat.iter n (fun d => fst (get_or_create_by_tag tag d)) (fst first)) in
  again = first /\
  option_map Spool.id (snd again) = option_map Spool.id (snd first) /\
  (exists s : Spool.t, snd first = Some s /\ Spool.tag s = tag) /\
  (forall s : Spool.t,
      filter_by_tag_first db tag = Some s ->
      first = (db, Some s)) /\
  (filter_by_tag_first db tag = None ->
   exists s : Spool.t,
     snd first = Some s /\
     DB.spools (fst first) = DB.spools db ++ [s] /\
     ~ In (Spool.id s) (map Spool.id (DB.spools db)) /\
     filter (fun x => String.eqb (Spool.tag x) tag) (DB.spools (fst first))
     = [s]).
Proof.
  intros first again.
  assert (Hiter : Nat.iter n (fun d => fst (get_or_create_by_tag tag d))
                    (fst first) = fst first).
  { induction n as [|n IH]; [reflexivity|].
    rewrite Nat.iter_succ, IH. subst first. simpl.
    apply import_row_idempotent. }
  assert (Hagain : again = first).
  { subst again. rewrite Hiter. subst first.
    unfold get_or_create_by_tag. simpl.
    now rewrite import_row_idempotent. }
  split; [exact Hagain|]. split; [now rewrite Hagain|].
  subst first. unfold get_or_create_by_tag. simpl.
  rewrite import_row_resolves.
  split; [|split].
  - destruct (filter_by_tag_first db tag) as [s|] eqn:E.
    + exists s. split; [reflexivity|].
      apply find_Some_holds in E. now apply String.eqb_eq in E.
    + eexists. split; reflexivity.
  - intros s E. now rewrite E, (import_row_found _ _ E).
  - intro E. rewrite E. eexists. split; [reflexivity|].
    split; [unfold import_row; now rewrite E|].
    split; [|now apply import_row_tag_rows].
    simpl. intro C. apply next_rowid_fresh in C. lia.
Qed.

Lemma get_or_create_by_tag_dedup_witness :
  get_or_create_by_tag "SP-001"
    (fst (get_or_create_by_tag "SP-001"
            (fst (get_or_create_by_tag "SP-001" DB.empty)))) =
  get_or_create_by_tag "SP-001" DB.empty /\
  get_or_create_by_tag "SP-001" DB.empty =
  (DB.mk [Spool.mk 1 "SP-001"] [] [], Some (Spool.mk 1 "SP-001")).
Proof.
  split; [|reflexivity].
  exact (proj1 (get_or_create_by_tag_dedup "SP-001" DB.empty 1)).
Defined.

(** ** Search by tag *)

Lemma like_any (p s : string) :
  like (String "%" p) s =
  like p s ||
  match s with
  | EmptyString => false
  | String _ s' => like (String "%" p) s'
  end.
Proof. destruct s; reflexivity. Qed.

Lemma like_percent (s : string) : like "%" s = true.
Proof.
  induction s as [|c s IH]; [reflexivity|].
  rewrite like_any, IH. apply orb_true_r.
Qed.

Lemma like_char (c : ascii) (p s : string) :
  is_wildcard c = false ->
  like (String c p) s =
  match s with
  | EmptyString => false
  | String d s' => like_char_eqb c d && like p s'
  end.
Proof.
  unfold is_wildcard. intro H. apply orb_false_iff in H. destruct H as [H1 H2].
  simpl. rewrite H1, H2. reflexivity.
Qed.

(** A pattern [q%] accepts the strings that begin with [q] up to the case
    of ASCII letters ... *)
Lemma prefix_like (q s : string) :
  prefix_by like_char_eqb q s = true -> like (String.append q "%") s = true.
Proof.
  revert s. induction q as [|c q IH]; intro s; simpl String.append.
  - intros _. apply like_percent.
  - destruct s as [|d s]; [discriminate|].
    simpl prefix_by. intro H. apply andb_true_iff in H. destruct H as [Hc Hq].
    specialize (IH s Hq).
    destruct (Ascii.eqb c "%") eqn:E1.
    + apply Ascii.eqb_eq in E1. subst c.
      rewrite like_any. apply orb_true_iff. right.
      rewrite like_any, IH. reflexivity.
    + destruct (Ascii.eqb c "_") eqn:E2.
      * apply Ascii.eqb_eq in E2. subst c. simpl. exact IH.
      * rewrite like_char by (unfold is_wildcard; now rewrite E1, E2).
        now rewrite Hc, IH.
Qed.

(** ... and no other string when [q] has no wildcard. *)
Lemma like_prefix (q s : string) :
  wildcard_free q = true ->
  like (String.append q "%") s = prefix_by like_char_eqb q s.
Proof.
  revert s. induction q as [|c q IH]; intros s Hq; simpl String.append.
  - rewrite like_percent. now destruct s.
  - unfold wildcard_free in Hq. simpl in Hq.
    apply andb_true_iff in Hq. destruct Hq as [Hc Hq].
    apply negb_true_iff in Hc. rewrite like_char by exact Hc.
    destruct s as [|d s]; [reflexivity|].
    simpl. now rewrite IH.
Qed.

Lemma Ascii_eqb_like_char_eqb (c d : ascii) :
  Ascii.eqb c d = true -> like_char_eqb c d = true.
Proof.
  intro H. apply Ascii.eqb_eq in H. subst d. apply Ascii.eqb_refl.
Qed.

Lemma prefix_by_weaken (q s : string) :
  prefix_by Ascii.eqb q s = true -> prefix_by like_char_eqb q s = true.
Proof.
  revert s. induction q as [|c q IH]; intros [|d s]; simpl; try congruence.
  intro H. apply andb_true_iff in H. destruct H as [H1 H2].
  now rewrite (Ascii_eqb_like_char_eqb _ _ H1), (IH _ H2).
Qed.

Lemma occurs_by_weaken (q s : string) :
  is_substring q s = true -> is_substring_nocase q s = true.
Proof.
  unfold is_substring, is_substring_nocase.
  induction s as [|d s IH]; simpl; intro H; apply orb_true_iff in H;
    apply orb_true_iff; destruct H as [H|H].
  - left. now apply prefix_by_weaken.
  - discriminate.
  - left. now apply prefix_by_weaken.
  - right. now apply IH.
Qed.

(** A tag in which [q] occurs up to the case of ASCII letters is matched. *)
Lemma occurs_contains (q tag : string) :
  is_substring_nocase q tag = true -> contains tag q = true.
Proof.
  unfold is_substring_nocase, contains.
  induction tag as [|d s IH]; rewrite like_any; simpl; intro H;
    apply orb_true_iff in H; apply orb_true_iff; destruct H as [H|H].
  - left. now apply prefix_like.
  - discriminate.
  - left. now apply prefix_like.
  - right. now apply IH.
Qed.

(** For a query without wildcards, the matched tags are those in which
    [q] occurs up to the case of ASCII letters. *)
Lemma contains_wildcard_free (q tag : string) :
  wildcard_free q = true -> contains tag q = is_substring_nocase q tag.
Proof.
  intro Hq. unfold is_substring_nocase, contains.
  induction tag as [|d s IH]; rewrite like_any, like_prefix by exact Hq.
  - reflexivity.
  - simpl occurs_by. now rewrite IH.
Qed.

(** [is_substring] is the substring relation. *)
Lemma prefix_by_eqb_spec (q s : string) :
  prefix_by Ascii.eqb q s = true <-> exists b, s = String.append q b.
Proof.
  revert s. induction q as [|c q IH]; intro s; simpl.
  - split; [intros _; now exists s|reflexivity].
  - destruct s as [|d s].
    + split; [discriminate|intros [b Hb]; discriminate Hb].
    + rewrite andb_true_iff, Ascii.eqb_eq, IH. split.
      * intros [-> [b ->]]. now exists b.
      * intros [b [= -> ->]]. split; [reflexivity|now exists b].
Qed.

Lemma is_substring_spec (q s : string) :
  is_substring q s = true <->
  exists a b, s = String.append a (String.append q b).
Proof.
  unfold is_substring. induction s as [|d s IH]; simpl.
  - rewrite orb_false_r, prefix_by_eqb_spec. split.
    + intros [b Hb]. now exists "", b.
    + intros [[|c a] [b Hb]]; [now exists b|discriminate Hb].
  - rewrite orb_true_iff, prefix_by_eqb_spec, IH. split.
    + intros [[b Hb]|[a [b Hb]]].
      * now exists "", b.
      * exists (String d a), b. simpl. now rewrite Hb.
    + intros [[|c a] [b Hb]].
      * left. now exists b.
      * right. simpl in Hb. injection Hb as -> ->. now exists a, b.
Qed.

Lemma contains_empty (tag : string) : contains tag "" = true.
Proof. apply occurs_contains. now destruct tag. Qed.

Lemma spools_rows_filter (q : string) (db : DB.t) :
  spools_rows q db =
  firstn 100 (filter (fun s => contains (Spool.tag s) q) (DB.spools db)).
Proof.
  unfold spools_rows. destruct (String.eqb_spec q "") as [->|_]; simpl negb;
    cbv iota; [|reflexivity].
  f_equal. symmetry. apply forallb_filter_id. apply forallb_forall.
  intros s _. apply contains_empty.
Qed.

Lemma In_firstn {A : Type} (n : nat) (l : list A) (x : A) :
  In x (firstn n l) -> In x l.
Proof.
  intro H. rewrite <- (firstn_skipn n l). apply in_or_app. now left.
Qed.

(** ** The query as SQLite runs it *)

Lemma select_limit_Ok {A : Type} (p : A -> exc bool) (f : A -> bool)
  (rows : list A) :
  (forall a, In a rows -> p a = Ok (f a)) ->
  forall limit, select_limit p rows limit = Ok (firstn limit (filter f rows)).
Proof.
  induction rows as [|a rows IH]; intros Hp limit; simpl.
  - now destruct limit.
  - destruct limit as [|limit'].
    + reflexivity.
    + rewrite (Hp a (or_introl eq_refl)). simpl.
      destruct (f a); simpl.
      * rewrite IH by (intros x Hx; apply Hp; now right). reflexivity.
      * apply IH. intros x Hx. apply Hp. now right.
Qed.

Lemma utf8_length_append (a b : string) :
  utf8_length (String.append a b) = utf8_length a + utf8_length b.
Proof. induction a as [|c a IH]; simpl; [reflexivity|]. rewrite IH. lia. Qed.

Lemma utf8_length_pattern (q : string) :
  utf8_length (String "%" (String.append q "%")) = utf8_length q + 2.
Proof.
  change (utf8_length (String "%" (String.append q "%")))
    with (1 + utf8_length (String.append q "%")).
  rewrite utf8_length_append. change (utf8_length "%") with 1. lia.
Qed.

Lemma sqlite_like_pattern (q tag : string) :
  sqlite_like (String "%" (String.append q "%")) tag =
  if SQLITE_MAX_LIKE_PATTERN_LENGTH <? utf8_length q + 2
  then Raise OperationalError
  else Ok (sqlite_contains tag q).
Proof.
  unfold sqlite_like. rewrite utf8_length_pattern. reflexivity.
Qed.

Lemma c_str_nul_free (s : string) : nul_free s = true -> c_str s = s.
Proof.
  unfold nul_free. induction s as [|c s IH]; simpl; [reflexivity|].
  intro H. apply andb_true_iff in H. destruct H as [Hc Hs].
  apply negb_true_iff in Hc. rewrite Hc. now rewrite IH.
Qed.

Lemma nul_free_append (a b : string) :
  nul_free (String.append a b) = nul_free a && nul_free b.
Proof.
  unfold nul_free. induction a as [|c a IH]; simpl; [reflexivity|].
  now rewrite IH, andb_assoc.
Qed.

(** A query with a NUL character is cut there, and the pattern has no
    [%] at its end. *)
Lemma c_str_append (a b : string) :
  c_str (String.append a b) =
  if nul_free a then String.append a (c_str b) else c_str a.
Proof.
  unfold nul_free. induction a as [|c a IH]; simpl; [reflexivity|].
  destruct (Ascii.eqb c zero); simpl; [reflexivity|].
  rewrite IH. now destruct (forallb _ (list_ascii_of_string a)).
Qed.

Lemma sqlite_contains_nul_free (tag q : string) :
  nul_free q = true -> nul_free tag = true ->
  sqlite_contains tag q = contains tag q.
Proof.
  intros Hq Ht. unfold sqlite_contains, contains.
  rewrite (c_str_nul_free tag Ht).
  change (c_str (String "%" (String.append q "%")))
    with (String "%" (c_str (String.append q "%"))).
  now rewrite c_str_append, Hq.
Qed.

Lemma sqlite_contains_cut (tag q : string) :
  nul_free q = false ->
  sqlite_contains tag q = like (String "%" (c_str q)) (c_str tag).
Proof.
  intro Hq. unfold sqlite_contains.
  change (c_str (String "%" (String.append q "%")))
    with (String "%" (c_str (String.append q "%"))).
  now rewrite c_str_append, Hq.
Qed.

Lemma sqlite_contains_empty (tag : string) : sqlite_contains tag "" = true.
Proof.
  unfold sqlite_contains. simpl c_str.
  rewrite like_any. apply orb_true_iff. left. apply like_percent.
Qed.

Lemma is_substring_nul_free (q tag : string) :
  is_substring q tag = true -> nul_free tag = true -> nul_free q = true.
Proof.
  intros H Ht. apply is_substring_spec in H. destruct H as (a & b & ->).
  rewrite !nul_free_append in Ht.
  apply andb_true_iff in Ht. destruct Ht as [_ Ht].
  apply andb_true_iff in Ht. tauto.
Qed.

(** The rows of the query, whenever the pattern is within the limit. *)
Lemma spools_query_Ok (q : string) (db : DB.t) :
  utf8_length q + 2 <= SQLITE_MAX_LIKE_PATTERN_LENGTH ->
  spools_query q db =
  Ok (firstn 100
        (filter (fun s => sqlite_contains (Spool.tag s) q) (DB.spools db))).
Proof.
  intro Hlen. unfold spools_query.
  destruct (String.eqb_spec q "") as [->|_]; simpl negb; cbv iota.
  - f_equal. f_equal. symmetry. apply forallb_filter_id, forallb_forall.
    intros s _. apply sqlite_contains_empty.
  - apply select_limit_Ok. intros s _. rewrite sqlite_like_pattern.
    destruct (Z.ltb_spec SQLITE_MAX_LIKE_PATTERN_LENGTH (utf8_length q + 2));
      [lia|reflexivity].
Qed.

(** On text without NUL and within the limit, the rows are those of
    [spools_rows]. *)
Lemma spools_query_rows (q : string) (db : DB.t) :
  utf8_length q + 2 <= SQLITE_MAX_LIKE_PATTERN_LENGTH ->
  nul_free q = true ->
  (forall s, In s (DB.spools db) -> nul_free (Spool.tag s) = true) ->
  spools_query q db = Ok (spools_rows q db).
Proof.
  intros Hlen Hq Htags. rewrite spools_query_Ok by exact Hlen.
  rewrite spools_rows_filter. f_equal. f_equal.
  apply filter_ext_in. intros s Hs.
  apply sqlite_contains_nul_free; [exact Hq|now apply Htags].
Qed.

(** The query ["sp"] returns the spools tagged ["SP-001"] and ["SP-002"],
    in neither of which ["sp"] occurs; so does the query ["P_0"]. *)
Lemma spools_query_not_case_sensitive :
  spools_query "sp" db_tags =
  Ok [Spool.mk 1 "SP-001"; Spool.mk 2 "SP-002"] /\
  is_substring "sp" "SP-001" = false /\
  is_substring "sp" "SP-002" = false /\
  spools_query "P_0" db_tags =
  Ok [Spool.mk 1 "SP-001"; Spool.mk 2 "SP-002"] /\
  is_substring "P_0" "SP-001" = false /\
  ~ (forall s : Spool.t,
        In s [Spool.mk 1 "SP-001"; Spool.mk 2 "SP-002"] <->
        In s (DB.spools db_tags) /\ is_substring "sp" (Spool.tag s) = true).
Proof.
  repeat (split; [reflexivity|]).
  intro C. destruct (proj1 (C (Spool.mk 1 "SP-001"))) as [_ H].
  - now left.
  - discriminate H.
Qed.

(** C7, as the handler has it. The rows of [spools] are the first 100, in
    table order, of the spools whose tag SQLite's [LIKE] matches against
    [%q%]: never more than 100, all of the matching spools when these are
    at most 100, and the first 100 of all spools when [q] is empty.  For
    tags without a NUL character: a tag in which [q] occurs is matched,
    and for a [q] without [%], [_] and NUL the matched tags are exactly
    those in which [q] occurs up to the case of ASCII letters.  A NUL in
    [q] ends the pattern there (the query of one NUL character lists the
    spools as the empty query does).  A pattern of more than 50000 bytes
    makes the statement fail, with [OperationalError], as soon as the
    table has a row.  With the tags SP-001, SP-002 and AX-100, ["SP"]
    returns the first two, ["zz"] nothing and [""] all three. *)
Theorem spools_query_like (q : string) (db : DB.t) :
  let matching :=
    filter (fun s => sqlite_contains (Spool.tag s) q) (DB.spools db) in
  (q <> "" -> DB.spools db <> [] ->
   SQLITE_MAX_LIKE_PATTERN_LENGTH < utf8_length q + 2 ->
   spools_query q db = Raise OperationalError) /\
  (utf8_length q + 2 <= SQLITE_MAX_LIKE_PATTERN_LENGTH ->
   exists rows,
     spools_query q db = Ok rows /\
     rows = firstn 100 matching /\
     (List.length rows <= 100)%nat /\
     (forall s : Spool.t,
         In s rows ->
         In s (DB.spools db) /\ sqlite_contains (Spool.tag s) q = true) /\
     ((List.length matching <= 100)%nat ->
      forall s : Spool.t,
        In s rows <->
        In s (DB.spools db) /\ sqlite_contains (Spool.tag s) q = true)) /\
  (q = "" -> spools_query q db = Ok (firstn 100 (DB.spools db))) /\
  (forall tag : string,
      nul_free tag = true -> is_substring q tag = true ->
      sqlite_contains tag q = true) /\
  (wildcard_free q = true -> nul_free q = true ->
   forall tag : string,
     nul_free tag = true ->
     sqlite_contains tag q = is_substring_nocase q tag) /\
  (nul_free q = false ->
   forall tag : string,
     sqlite_contains tag q = like (String "%" (c_str q)) (c_str tag)) /\
  spools_query "SP" db_tags =
  Ok [Spool.mk 1 "SP-001"; Spool.mk 2 "SP-002"] /\
  spools_query "zz" db_tags = Ok [] /\
  spools_query "" db_tags = Ok (DB.spools db_tags) /\
  spools_query (chr 0) db_tags = Ok (DB.spools db_tags).
Proof.
  intro matching.
  split; [|split; [|split; [|split; [|split; [|split]]]]].
  - intros Hq Hrows Hlen. unfold spools_query.
    destruct (String.eqb_spec q ""); [contradiction|]. simpl negb. cbv iota.
    destruct (DB.spools db) as [|a rest]; [now contradiction Hrows|].
    simpl. rewrite sqlite_like_pattern.
    destruct (Z.ltb_spec SQLITE_MAX_LIKE_PATTERN_LENGTH (utf8_length q + 2));
      [reflexivity|lia].
  - intro Hlen. exists (firstn 100 matching).
    split; [now apply spools_query_Ok|]. split; [reflexivity|].
    split; [apply firstn_le_length|]. split.
    + intros s Hs. apply In_firstn in Hs. now apply filter_In in Hs.
    + intros Hm s. rewrite firstn_all2 by exact Hm. apply filter_In.
  - now intros ->.
  - intros tag Ht H.
    rewrite sqlite_contains_nul_free;
      [|now apply (is_substring_nul_free q tag)|exact Ht].
    now apply occurs_contains, occurs_by_weaken.
  - intros Hw Hq tag Ht.
    rewrite sqlite_contains_nul_free by assumption.
    now apply contains_wildcard_free.
  - intros Hq tag. now apply sqlite_contains_cut.
  - repeat split.
Qed.

Lemma spools_query_like_witness :
  utf8_length "SP" + 2 <= SQLITE_MAX_LIKE_PATTERN_LENGTH /\
  exists rows,
    spools_query "SP" db_tags = Ok rows /\
    (In (Spool.mk 2 "SP-002") rows <->
     In (Spool.mk 2 "SP-002") (DB.spools db_tags) /\
     sqlite_contains "SP-002" "SP" = true).
Proof.
  assert (H : utf8_length "SP" + 2 <= SQLITE_MAX_LIKE_PATTERN_LENGTH)
    by (vm_compute; discriminate).
  split; [exact H|].
  destruct (spools_query_like "SP" db_tags) as (_ & H2 & _).
  destruct (H2 H) as (rows & Hrows & _ & _ & _ & Hall).
  exists rows. split; [exact Hrows|].
  apply Hall. vm_compute. lia.
Defined.

(* ================================================================== *)
(** * Further properties of the handlers *)

(** ** Constraints of the schema *)

Lemma next_rowid_pos (ids : list Z) :
  (forall i, In i ids -> 1 <= i) -> 1 <= next_rowid ids.
Proof.
  destruct ids as [|a l]; simpl; [lia|].
  intro H. destruct (fold_left_max_ge l a) as [H1 _].
  specialize (H a (or_introl eq_refl)). lia.
Qed.

Lemma NoDup_snoc {A : Type} (l : list A) (x : A) :
  NoDup l -> ~ In x l -> NoDup (l ++ [x]).
Proof.
  intros Hl Hx. apply NoDup_app; [exact Hl|repeat constructor; intros []|].
  intros a Ha [<-|[]]. now apply Hx.
Qed.

Lemma filter_by_tag_first_None (db : DB.t) (tag : string) :
  filter_by_tag_first db tag = None <->
  ~ In tag (map Spool.tag (DB.spools db)).
Proof.
  unfold filter_by_tag_first. split.
  - intros H C. apply in_map_iff in C. destruct C as (s & <- & Hs).
    apply (find_none _ _ H) in Hs. now rewrite String.eqb_refl in Hs.
  - intro H. destruct (find _ _) as [s|] eqn:E; [|reflexivity].
    exfalso. apply H. apply find_some in E. destruct E as [E1 E2].
    apply String.eqb_eq in E2. subst tag. now apply in_map.
Qed.

Lemma import_row_spools (tag : string) (db : DB.t) :
  DB.spools (import_row tag db) =
  DB.spools db ++
  match filter_by_tag_first db tag with
  | Some _ => []
  | None => [Spool.mk (next_rowid (map Spool.id (DB.spools db))) tag]
  end.
Proof.
  unfold import_row. destruct (filter_by_tag_first db tag); simpl;
    [now rewrite app_nil_r|reflexivity].
Qed.

Lemma reachable_import_rows (tags : list string) (db : DB.t) :
  reachable db -> reachable (import_rows tags db).
Proof.
  unfold import_rows. revert db.
  induction tags as [|t tags IH]; intros db H; simpl; [exact H|].
  apply IH. now constructor.
Qed.

Lemma reachable_import_excel (ws : Worksheet.t) (db : DB.t) :
  reachable db -> reachable (fst (import_excel ws db)).
Proof.
  intro H. unfold import_excel.
  destruct (find_header ws) as [[col header_row]|]; simpl;
    [now apply reachable_import_rows|exact H].
Qed.

(** The rows of [spool_states] after an update of an existing spool: the
    rows there were, or a row for the updated spool that holds the form. *)
Lemma update_spool_states_In
  (db : DB.t) (spool_id : Z) (stage status location note : string) (now : Z)
  (r : SpoolState.t) :
  query_get db spool_id <> None ->
  In r (DB.spool_states
          (fst (update_spool spool_id stage status location note now db))) ->
  In r (DB.spool_states db) \/
  (SpoolState.spool_id r = spool_id /\
   state_fields r = (stage, status, Some location, Some note) /\
   SpoolState.updated_at r = now /\
   (SpoolState.updated_by r = None \/
    exists r0, In r0 (DB.spool_states db) /\
               SpoolState.updated_by r = SpoolState.updated_by r0)).
Proof.
  intros H Hr. rewrite update_spool_states in Hr by exact H.
  destruct (spool_state db spool_id).
  - apply in_map_iff in Hr. destruct Hr as (r0 & Hr & Hin).
    destruct (Z.eqb_spec (SpoolState.spool_id r0) spool_id) as [E|_].
    + right. subst r. simpl. repeat split; [exact E|]. right. now exists r0.
    + left. now subst r.
  - apply in_app_or in Hr. destruct Hr as [Hr|[<-|[]]]; [now left|].
    right. simpl. repeat split. now left.
Qed.

(** X1. In every database the handlers can produce, the constraints of the
    schema hold: tags are unique, spool and event identifiers are positive
    and grow along their tables (so they are unique), and no spool has two
    snapshot rows.  No insert of the handlers can violate a [UNIQUE] or
    [PRIMARY KEY] constraint. *)
Theorem reachable_schema_constraints (db : DB.t) :
  reachable db ->
  NoDup (map Spool.tag (DB.spools db)) /\
  StronglySorted Z.lt (map Spool.id (DB.spools db)) /\
  (forall s, In s (DB.spools db) -> 1 <= Spool.id s) /\
  StronglySorted Z.lt (map Event.id (DB.events db)) /\
  (forall e, In e (DB.events db) -> 1 <= Event.id e) /\
  (forall spool_id, (List.length (state_rows db spool_id) <= 1)%nat).
Proof.
  intro Hr.
  split; [|split; [|split; [|split; [|split]]]].
  - induction Hr as [|db sid f _ IH|db tag _ IH].
    + constructor.
    + unfold update_with. now rewrite update_spool_spools.
    + rewrite import_row_spools.
      destruct (filter_by_tag_first db tag) eqn:E;
        [now rewrite app_nil_r|].
      rewrite map_app. simpl. apply NoDup_snoc; [exact IH|].
      now apply filter_by_tag_first_None.
  - induction Hr as [|db sid f _ IH|db tag _ IH].
    + constructor.
    + unfold update_with. now rewrite update_spool_spools.
    + rewrite import_row_spools.
      destruct (filter_by_tag_first db tag) eqn:E;
        [now rewrite app_nil_r|].
      rewrite map_app. simpl. apply StronglySorted_snoc; [exact IH|].
      intro y. apply next_rowid_fresh.
  - induction Hr as [|db sid f _ IH|db tag _ IH].
    + intros s [].
    + unfold update_with. now rewrite update_spool_spools.
    + rewrite import_row_spools. intros s Hs.
      apply in_app_or in Hs. destruct Hs as [Hs|Hs]; [now apply IH|].
      destruct (filter_by_tag_first db tag); [destruct Hs|].
      destruct Hs as [<-|[]]. simpl. apply next_rowid_pos.
      intros i Hi. apply in_map_iff in Hi. destruct Hi as (s & <- & Hs).
      now apply IH.
  - now apply reachable_events_sorted.
  - induction Hr as [|db sid f _ IH|db tag _ IH].
    + intros e [].
    + unfold update_with.
      destruct (query_get db sid) as [s|] eqn:E;
        [|now rewrite update_spool_missing].
      rewrite update_spool_events by congruence.
      intros e He. apply in_app_or in He.
      destruct He as [He|[<-|[]]]; [now apply IH|].
      simpl. apply next_rowid_pos.
      intros i Hi. apply in_map_iff in Hi. destruct Hi as (e & <- & He).
      now apply IH.
    + now rewrite (proj2 (import_row_states tag db)).
  - intro spool_id. now apply reachable_state_rows.
Qed.

Lemma reachable_schema_constraints_witness :
  reachable db_painting /\
  NoDup (map Spool.tag (DB.spools db_painting)) /\
  (List.length (state_rows db_painting 1) <= 1)%nat.
Proof.
  split; [exact reachable_db_painting|].
  destruct (reachable_schema_constraints reachable_db_painting)
    as (H1 & _ & _ & _ & _ & H6).
  split; [exact H1|exact (H6 1)].
Defined.

Lemma find_app_Some {A : Type} (p : A -> bool) (l l' : list A) :
  find p l <> None -> find p (l ++ l') = find p l.
Proof.
  induction l as [|a l IH]; simpl; [intro H; now contradiction H|].
  destruct (p a); [reflexivity|exact IH].
Qed.

Lemma query_get_import_row (tag : string) (db : DB.t) (spool_id : Z) :
  query_get db spool_id <> None ->
  query_get (import_row tag db) spool_id = query_get db spool_id.
Proof.
  unfold query_get. rewrite import_row_spools. apply find_app_Some.
Qed.

(** X2. In every database the handlers can produce, every snapshot row and
    every event belongs to a spool of the table [spools]: the foreign keys
    of [spool_states] and [events] never dangle. *)
Theorem reachable_foreign_keys (db : DB.t) :
  reachable db ->
  (forall st, In st (DB.spool_states db) ->
              query_get db (SpoolState.spool_id st) <> None) /\
  (forall e, In e (DB.events db) ->
             query_get db (Event.spool_id e) <> None).
Proof.
  induction 1 as [|db sid f _ [IH1 IH2]|db tag _ [IH1 IH2]].
  - split; intros ? [].
  - unfold update_with.
    destruct (query_get db sid) as [s|] eqn:E;
      [|rewrite update_spool_missing by exact E; now split].
    assert (H : query_get db sid <> None) by congruence.
    split.
    + intros st Hst. rewrite update_spool_keeps_spool.
      apply update_spool_states_In in Hst; [|exact H].
      destruct Hst as [Hst|(-> & _)]; [now apply IH1|exact H].
    + intros e He. rewrite update_spool_keeps_spool.
      rewrite update_spool_events in He by exact H.
      apply in_app_or in He. destruct He as [He|[<-|[]]];
        [now apply IH2|exact H].
  - destruct (import_row_states tag db) as [-> ->].
    split; intros x Hx; rewrite query_get_import_row; auto.
Qed.

Lemma reachable_foreign_keys_witness :
  reachable db_painting /\
  (forall e, In e (DB.events db_painting) ->
             query_get db_painting (Event.spool_id e) <> None).
Proof.
  split; [exact reachable_db_painting|].
  exact (proj2 (reachable_foreign_keys reachable_db_painting)).
Defined.

(** X3. No handler ever records who made a change: in every database the
    handlers can produce, every event has [user_id] [None] and the action
    ["UPDATE"], and every snapshot has [updated_by] [None]. *)
Theorem reachable_no_actor (db : DB.t) :
  reachable db ->
  (forall e, In e (DB.events db) ->
             Event.user_id e = None /\ Event.action e = "UPDATE") /\
  (forall st, In st (DB.spool_states db) ->
              SpoolState.updated_by st = None).
Proof.
  induction 1 as [|db sid f _ [IH1 IH2]|db tag _ [IH1 IH2]].
  - split; intros ? [].
  - unfold update_with.
    destruct (query_get db sid) as [s|] eqn:E;
      [|rewrite update_spool_missing by exact E; now split].
    assert (H : query_get db sid <> None) by congruence.
    split.
    + intros e He. rewrite update_spool_events in He by exact H.
      apply in_app_or in He. destruct He as [He|[<-|[]]];
        [now apply IH1|now split].
    + intros st Hst. apply update_spool_states_In in Hst; [|exact H].
      destruct Hst as [Hst|(_ & _ & _ & [Hn|(r0 & Hr0 & ->)])];
        [now apply IH2|exact Hn|now apply IH2].
  - destruct (import_row_states tag db) as [-> ->]. now split.
Qed.

Lemma reachable_no_actor_witness :
  reachable db_painting /\
  (forall st, In st (DB.spool_states db_painting) ->
              SpoolState.updated_by st = None).
Proof.
  split; [exact reachable_db_painting|].
  exact (proj2 (reachable_no_actor reachable_db_painting)).
Defined.

(** ** What the handlers never undo *)

(** X4. Whatever requests follow, the log only grows at its end and no
    spool is removed, renumbered or renamed: the events and the spools
    there were stay where they were, as they were; a spool that can be
    looked up stays so, with the same row, and a spool that has a snapshot
    keeps having one. *)
Theorem evolves_append_only (db db' : DB.t) :
  evolves db db' ->
  (exists new_events, DB.events db' = DB.events db ++ new_events) /\
  (exists new_spools, DB.spools db' = DB.spools db ++ new_spools) /\
  (forall spool_id, query_get db spool_id <> None ->
                    query_get db' spool_id = query_get db spool_id) /\
  (forall spool_id, spool_state db spool_id <> None ->
                    spool_state db' spool_id <> None) /\
  (forall spool_id,
      exists later, spool_events db' spool_id =
                    spool_events db spool_id ++ later).
Proof.
  induction 1 as [|db1 sid f _ (IH1 & IH2 & IH3 & IH4 & IH5)
                  |db1 tag _ (IH1 & IH2 & IH3 & IH4 & IH5)].
  - split; [exists []; now rewrite app_nil_r|].
    split; [exists []; now rewrite app_nil_r|].
    split; [reflexivity|]. split; [auto|].
    intro. exists []. now rewrite app_nil_r.
  - unfold update_with.
    destruct (query_get db1 sid) as [s|] eqn:E;
      [|rewrite update_spool_missing by exact E; simpl; repeat split; auto].
    assert (H : query_get db1 sid <> None) by congruence.
    split; [|split; [|split; [|split]]].
    + destruct IH1 as [l Hl]. exists (l ++ [Event.mk
        (next_rowid (map Event.id (DB.events db1))) sid None (Form.now f)
        "UPDATE" (Form.stage f) (Form.status f) (Some (Form.location f))
        (Some (Form.note f))]).
      rewrite update_spool_events by exact H. rewrite Hl.
      now rewrite app_assoc.
    + now rewrite update_spool_spools.
    + intros i Hi. rewrite update_spool_keeps_spool. now apply IH3.
    + intros i Hi. destruct (Z.eq_dec i sid) as [->|Hne].
      * rewrite update_spool_state by exact H. discriminate.
      * rewrite update_spool_state_other by exact Hne. now apply IH4.
    + intro i. destruct (IH5 i) as [l Hl].
      destruct (Z.eq_dec i sid) as [->|Hne].
      * rewrite update_spool_events_same by exact H. rewrite Hl.
        eexists. now rewrite <- app_assoc.
      * rewrite update_spool_events_other by exact Hne. now exists l.
  - unfold spool_state, spool_events.
    destruct (import_row_states tag db1) as [-> ->].
    split; [exact IH1|]. split; [|split; [|split; [exact IH4|exact IH5]]].
    + destruct IH2 as [l Hl]. rewrite import_row_spools, Hl.
      eexists. now rewrite <- app_assoc.
    + intros i Hi. rewrite <- (IH3 i Hi). apply query_get_import_row.
      rewrite (IH3 i Hi). exact Hi.
Qed.

Lemma evolves_append_only_witness :
  evolves db_tags db_painting /\
  exists new_events,
    DB.events db_painting = DB.events db_tags ++ new_events.
Proof.
  assert (H : evolves db_tags db_painting)
    by exact (evolves_update 1 (Form.mk "PINTURA" "PENDENTE" "" "" 10)
                (evolves_refl db_tags)).
  split; [exact H|].
  exact (proj1 (evolves_append_only H)).
Defined.

(** ** Updates side by side and in sequence *)

(** X5. An update of one spool leaves every other spool as it was: its
    snapshot, its snapshot rows and its history; and it leaves the table
    [spools] as it was. *)
Theorem update_spool_touches_one_spool
  (db : DB.t) (spool_id : Z) (stage status location note : string) (now : Z)
  (other : Z) :
  other <> spool_id ->
  let db' := fst (update_spool spool_id stage status location note now db) in
  spool_state db' other = spool_state db other /\
  state_rows db' other = state_rows db other /\
  spool_events db' other = spool_events db other /\
  DB.spools db' = DB.spools db.
Proof.
  intros Hne db'. subst db'.
  split; [now apply update_spool_state_other|].
  split; [now apply update_spool_state_rows_other|].
  split; [now apply update_spool_events_other|].
  apply update_spool_spools.
Qed.

Lemma update_spool_touches_one_spool_witness :
  2 <> 1 /\
  spool_state (fst (update_spool 1 "BORDO" "LIBERADO" "" "" 20 db_painting))
    2 = spool_state db_painting 2 /\
  spool_events (fst (update_spool 1 "BORDO" "LIBERADO" "" "" 20 db_painting))
    2 = spool_events db_painting 2.
Proof.
  assert (H : 2 <> 1) by lia.
  split; [exact H|].
  destruct (@update_spool_touches_one_spool db_painting 1 "BORDO" "LIBERADO"
              "" "" 20 2 H) as (H1 & _ & H3 & _).
  split; [exact H1|exact H3].
Defined.

(** X6. A run of updates of one existing spool appends to the log one
    event per request, in the order of the requests, each for that spool
    and with the stage, status, location, note and clock reading of its
    request; the snapshot ends with the values and the clock reading of
    the last request. *)
Theorem update_seq_history (spool_id : Z) (forms : list Form.t) (db : DB.t) :
  query_get db spool_id <> None ->
  let db' := fst (update_seq spool_id forms db) in
  (exists new_events,
      DB.events db' = DB.events db ++ new_events /\
      spool_events db' spool_id = spool_events db spool_id ++ new_events /\
      map (fun e => (Event.spool_id e, event_fields e, Event.ts e))
        new_events =
      map (fun f => (spool_id,
                     (Form.stage f, Form.status f, Some (Form.location f),
                      Some (Form.note f)),
                     Form.now f)) forms) /\
  (forall f, last_opt forms = Some f ->
             exists st,
               spool_state db' spool_id = Some st /\
               state_fields st =
               (Form.stage f, Form.status f, Some (Form.location f),
                Some (Form.note f)) /\
               SpoolState.updated_at st = Form.now f).
Proof.
  revert db. induction forms as [|f rest IH]; intros db H db'; subst db'.
  - split; [|discriminate].
    exists []. simpl. now rewrite !app_nil_r.
  - rewrite update_seq_cons.
    assert (H1 : query_get (fst (update_with spool_id f db)) spool_id
                 <> None).
    { unfold update_with. now rewrite update_spool_keeps_spool. }
    destruct (IH _ H1) as [(new & E1 & E2 & E3) L]. split.
    + eexists (_ :: new). split; [|split].
      * rewrite E1. unfold update_with at 1.
        rewrite update_spool_events by exact H.
        rewrite <- app_assoc. reflexivity.
      * rewrite E2. unfold update_with at 1.
        rewrite update_spool_events_same by exact H.
        rewrite <- app_assoc. reflexivity.
      * simpl. now rewrite E3.
    + intros g Hg. destruct rest as [|f' rest].
      * simpl in Hg. injection Hg as <-. simpl.
        unfold update_with. rewrite update_spool_state by exact H.
        eexists. split; [reflexivity|].
        now destruct (spool_state db spool_id).
      * apply L. exact Hg.
Qed.

Lemma update_seq_history_witness :
  query_get db_tags 1 <> None /\
  exists st,
    spool_state
      (fst (update_seq 1
              [Form.mk "FABRICACAO" "PENDENTE" "" "" 10;
               Form.mk "LOGISTICA1" "LIBERADO" "Yard A" "" 20] db_tags)) 1 =
    Some st /\
    state_fields st = ("LOGISTICA1", "LIBERADO", Some "Yard A", Some "").
Proof.
  assert (H : query_get db_tags 1 <> None) by (vm_compute; discriminate).
  split; [exact H|].
  destruct (proj2 (@update_seq_history 1
                     [Form.mk "FABRICACAO" "PENDENTE" "" "" 10;
                      Form.mk "LOGISTICA1" "LIBERADO" "Yard A" "" 20]
                     db_tags H)
              (Form.mk "LOGISTICA1" "LIBERADO" "Yard A" "" 20) eq_refl)
    as (st & H1 & H2 & _).
  exists st. split; [exact H1|exact H2].
Defined.

Lemma StronglySorted_snoc_iff {A : Type} (R : A -> A -> Prop) (l : list A)
  (x : A) :
  StronglySorted R (l ++ [x]) <->
  StronglySorted R l /\ Forall (fun y => R y x) l.
Proof.
  induction l as [|a l IH]; simpl.
  - split; [intros _; split; constructor|].
    intros _. constructor; constructor.
  - split.
    + intro H. inversion H as [|? ? Hl Ha]; subst.
      apply IH in Hl. destruct Hl as [Hl Hx].
      apply Forall_app in Ha. destruct Ha as [Ha Hax].
      split; [now constructor|]. constructor; [|exact Hx].
      now inversion Hax.
    + intros [H Hx]. inversion H as [|? ? Hl Ha]; subst.
      inversion Hx as [|? ? Hax Hx']; subst.
      constructor; [apply IH; now split|].
      apply Forall_app. split; [exact Ha|]. now constructor.
Qed.

(** X7. The timestamps of the log are the clock readings of the requests:
    after an update of an existing spool, the log is in time order if and
    only if it was before and the clock reading of the request is not
    earlier than a timestamp already in the log.  The handler does not
    compare the clock with the log. *)
Theorem update_spool_time_order
  (db : DB.t) (spool_id : Z) (stage status location note : string) (now : Z) :
  query_get db spool_id <> None ->
  let db' := fst (update_spool spool_id stage status location note now db) in
  StronglySorted Z.le (map Event.ts (DB.events db')) <->
  StronglySorted Z.le (map Event.ts (DB.events db)) /\
  (forall e, In e (DB.events db) -> Event.ts e <= now).
Proof.
  intros H db'. subst db'. rewrite update_spool_events by exact H.
  rewrite map_app. simpl. rewrite StronglySorted_snoc_iff.
  rewrite Forall_forall. split; intros [H1 H2]; (split; [exact H1|]).
  - intros e He. apply H2. now apply in_map.
  - intros t Ht. apply in_map_iff in Ht. destruct Ht as (e & <- & He).
    now apply H2.
Qed.

Lemma update_spool_time_order_witness :
  query_get db_painting 1 <> None /\
  ~ StronglySorted Z.le
      (map Event.ts
         (DB.events
            (fst (update_spool 1 "BORDO" "LIBERADO" "" "" 5 db_painting)))).
Proof.
  assert (H : query_get db_painting 1 <> None) by (vm_compute; discriminate).
  split; [exact H|].
  intro C.
  apply (proj1 (@update_spool_time_order db_painting 1 "BORDO" "LIBERADO"
                  "" "" 5 H)) in C.
  destruct C as [_ C].
  specialize (C _ (or_introl eq_refl)). vm_compute in C. now apply C.
Defined.

(** ** The dashboard *)

Section CountByKey.
Context {R : Type}.
Variables (key : R -> Z) (p : R -> bool).

Lemma filter_split_length (q : R -> bool) (l : list R) :
  List.length (filter p l) =
  (List.length (filter p (filter q l)) +
   List.length (filter p (filter (fun r => negb (q r)) l)))%nat.
Proof.
  induction l as [|a l IH]; simpl; [reflexivity|].
  destruct (q a), (p a) eqn:E; simpl; rewrite ?E; simpl; lia.
Qed.

Lemma find_filter_hd (q : R -> bool) (l : list R) :
  find q l = hd_error (filter q l).
Proof.
  induction l as [|a l IH]; simpl; [reflexivity|].
  destruct (q a); [reflexivity|exact IH].
Qed.

Lemma find_filter_other (q q' : R -> bool) (l : list R) :
  (forall r, q' r = true -> q r = true) ->
  find q' (filter q l) = find q' l.
Proof.
  intro H. induction l as [|a l IH]; simpl; [reflexivity|].
  destruct (q a) eqn:E; simpl.
  - destruct (q' a); [reflexivity|exact IH].
  - destruct (q' a) eqn:E'; [|exact IH].
    apply H in E'. congruence.
Qed.

(** Rows with at most one row per key, all keys among [ids], and no key
    twice in [ids]: as many rows satisfy [p] as there are keys in [ids]
    whose row satisfies [p]. *)
Lemma count_by_key (ids : list Z) :
  forall rows : list R,
    NoDup ids ->
    (forall k : Z,
        (List.length (filter (fun r => (key r =? k)%Z) rows) <= 1)%nat) ->
    (forall r, In r rows -> In (key r) ids) ->
    List.length (filter p rows) =
    List.length
      (filter (fun k =>
                 match find (fun r => key r =? k) rows with
                 | Some r => p r
                 | None => false
                 end) ids).
Proof.
  induction ids as [|k ids IH]; intros rows Hnd Huniq Hin.
  - destruct rows as [|r rows]; [reflexivity|].
    destruct (Hin r (or_introl eq_refl)).
  - inversion Hnd as [|? ? Hk Hnd']; subst.
    rewrite (filter_split_length (fun r => key r =? k)).
    set (rows' := filter (fun r => negb (key r =? k)) rows).
    assert (IH' := IH rows' Hnd').
    rewrite IH'; clear IH'.
    + assert (Hext :
        filter (fun k0 =>
                  match find (fun r => key r =? k0) rows' with
                  | Some r => p r
                  | None => false
                  end) ids =
        filter (fun k0 =>
                  match find (fun r => key r =? k0) rows with
                  | Some r => p r
                  | None => false
                  end) ids).
      { apply filter_ext_in. intros k0 Hk0. unfold rows'.
        rewrite find_filter_other; [reflexivity|].
        intros r Hr. apply Z.eqb_eq in Hr. apply negb_true_iff.
        apply Z.eqb_neq. intro E. apply Hk. now rewrite <- E, Hr. }
      rewrite Hext. simpl. rewrite find_filter_hd.
      specialize (Huniq k).
      destruct (filter (fun r => key r =? k) rows) as [|r [|r' l]];
        simpl in *; [reflexivity| |lia].
      destruct (p r); simpl; lia.
    + intro k0. unfold rows'.
      specialize (Huniq k0).
      assert (Hle : forall l : list R,
                 (List.length
                    (filter (fun r => (key r =? k0)%Z)
                       (filter (fun r => negb (key r =? k)%Z) l)) <=
                  List.length (filter (fun r => (key r =? k0)%Z) l))%nat).
      { induction l as [|a l IHl]; simpl; [lia|].
        destruct (key a =? k); simpl;
          destruct (key a =? k0); simpl; lia. }
      specialize (Hle rows). lia.
    + intros r Hr. unfold rows' in Hr. apply filter_In in Hr.
      destruct Hr as [Hr Hne]. apply negb_true_iff, Z.eqb_neq in Hne.
      destruct (Hin r Hr) as [E|E]; [congruence|exact E].
Qed.
End CountByKey.

Lemma filter_map_length_comm {A B : Type} (f : A -> B) (h : B -> bool)
  (l : list A) :
  List.length (filter (fun a => h (f a)) l) =
  List.length (filter h (map f l)).
Proof.
  induction l as [|a l IH]; simpl; [reflexivity|].
  destruct (h (f a)); simpl; now rewrite IH.
Qed.

Lemma StronglySorted_lt_NoDup (l : list Z) :
  StronglySorted Z.lt l -> NoDup l.
Proof.
  induction 1 as [|a l _ IH Ha]; constructor; [|exact IH].
  intro C. rewrite Forall_forall in Ha. specialize (Ha a C). lia.
Qed.

Lemma reachable_spool_ids_sorted (db : DB.t) :
  reachable db -> StronglySorted Z.lt (map Spool.id (DB.spools db)).
Proof.
  induction 1 as [|db sid f _ IH|db tag _ IH].
  - constructor.
  - unfold update_with. now rewrite update_spool_spools.
  - rewrite import_row_spools.
    destruct (filter_by_tag_first db tag); [now rewrite app_nil_r|].
    rewrite map_app. simpl. apply StronglySorted_snoc; [exact IH|].
    intro y. apply next_rowid_fresh.
Qed.

Lemma query_get_In (db : DB.t) (spool_id : Z) :
  query_get db spool_id <> None -> In spool_id (map Spool.id (DB.spools db)).
Proof.
  unfold query_get. destruct (find _ _) as [s|] eqn:E;
    [|intro H; now contradiction H].
  intros _. apply find_some in E. destruct E as [E1 E2].
  apply Z.eqb_eq in E2. subst spool_id. now apply in_map.
Qed.

Lemma reachable_state_refs (db : DB.t) (st : SpoolState.t) :
  reachable db -> In st (DB.spool_states db) ->
  query_get db (SpoolState.spool_id st) <> None.
Proof.
  intro Hr. revert st.
  induction Hr as [|db sid f _ IH|db tag _ IH]; intro st.
  - intros [].
  - unfold update_with.
    destruct (query_get db sid) as [s|] eqn:E;
      [|rewrite update_spool_missing by exact E; apply IH].
    assert (H : query_get db sid <> None) by congruence.
    intro Hst. rewrite update_spool_keeps_spool.
    apply update_spool_states_In in Hst; [|exact H].
    destruct Hst as [Hst|(-> & _)]; [now apply IH|exact H].
  - rewrite (proj1 (import_row_states tag db)). intro Hst.
    rewrite query_get_import_row; now apply IH.
Qed.

Lemma reachable_snapshot_is_latest (db : DB.t) (spool_id : Z) :
  reachable db -> snapshot_is_latest db spool_id.
Proof.
  induction 1 as [|db sid f _ IH|db tag _ IH].
  - exact I.
  - now apply update_spool_keeps_snapshot_is_latest.
  - unfold snapshot_is_latest, latest_event, spool_state, spool_events.
    destruct (import_row_states tag db) as [-> ->]. exact IH.
Qed.

(** X8. The number the dashboard shows as blocked is, in every database
    the handlers can produce, the number of spools whose latest event has
    the status BLOQUEADO. *)
Theorem total_blocked_counts_latest_events (db : DB.t) :
  reachable db ->
  total_blocked db =
  Z.of_nat
    (List.length
       (filter
          (fun s =>
             match latest_event db (Spool.id s) with
             | Some e => String.eqb (Event.status e) (Status_value BLOQUEADO)
             | None => false
             end)
          (DB.spools db))).
Proof.
  intro Hr. unfold total_blocked. f_equal.
  rewrite (count_by_key SpoolState.spool_id
             (fun st => String.eqb (SpoolState.status st)
                          (Status_value BLOQUEADO))
             (ids := map Spool.id (DB.spools db))).
  - rewrite <- (filter_map_length_comm Spool.id).
    f_equal. apply filter_ext. intro s.
    assert (Hs := reachable_snapshot_is_latest (Spool.id s) Hr).
    unfold snapshot_is_latest, spool_state in Hs.
    destruct (find _ (DB.spool_states db)) as [st|],
             (latest_event db (Spool.id s)) as [e|];
      try contradiction; [|reflexivity].
    unfold state_fields, event_fields in Hs. now injection Hs as _ -> _ _.
  - apply StronglySorted_lt_NoDup. now apply reachable_spool_ids_sorted.
  - intro k. now apply reachable_state_rows.
  - intros st Hst. apply query_get_In. now apply reachable_state_refs.
Qed.

Lemma total_blocked_counts_latest_events_witness :
  reachable (fst (update_spool 2 "PINTURA" "BLOQUEADO" "" "" 20 db_painting))
  /\
  total_blocked
    (fst (update_spool 2 "PINTURA" "BLOQUEADO" "" "" 20 db_painting)) = 1.
Proof.
  assert (H : reachable
                (fst (update_spool 2 "PINTURA" "BLOQUEADO" "" "" 20
                        db_painting)))
    by exact (reachable_update 2 (Form.mk "PINTURA" "BLOQUEADO" "" "" 20)
                reachable_db_painting).
  split; [exact H|].
  rewrite (total_blocked_counts_latest_events H). reflexivity.
Defined.

(** ** Users and sessions *)

(** In a table without two rows of one key, the search by the key of a row
    returns that row. *)
Lemma find_by_key {A K : Type} (key : A -> K) (eqb : K -> K -> bool)
  (l : list A) (a : A) :
  (forall x y, eqb x y = true <-> x = y) ->
  NoDup (map key l) -> In a l ->
  find (fun x => eqb (key x) (key a)) l = Some a.
Proof.
  intros Heqb. induction l as [|b l IH]; simpl; [intros _ []|].
  intros Hnd Hin. inversion Hnd as [|? ? Hb Hnd']; subst.
  destruct (eqb (key b) (key a)) eqn:E.
  - apply Heqb in E. destruct Hin as [->|Hin]; [reflexivity|].
    exfalso. apply Hb. rewrite E. now apply in_map.
  - destruct Hin as [->|Hin]; [|now apply IH].
    assert (C : eqb (key a) (key a) = true) by now apply Heqb.
    congruence.
Qed.

(** X9. [init_db] makes sure there is a user ["admin"] and adds nothing
    else: the users there were stay; if none is called ["admin"], one row
    is added with that name, the given hash, the role ["ADMIN"] and a fresh
    identifier; a second [init_db] changes nothing, whatever hash it would
    have used. *)
Theorem init_db_ensures_admin (admin_hash other_hash : string)
  (users : list User.t) :
  let is_admin := fun u => String.eqb (User.username u) "admin" in
  let users' := init_db admin_hash users in
  find is_admin users' <> None /\
  init_db other_hash users' = users' /\
  (find is_admin users <> None -> users' = users) /\
  (find is_admin users = None ->
   users' =
   users ++
   [User.mk (next_rowid (map User.id users)) "admin" admin_hash "ADMIN"] /\
   List.length (filter is_admin users') = 1%nat /\
   ~ In (next_rowid (map User.id users)) (map User.id users)).
Proof.
  intros is_admin users'. subst users'. unfold init_db.
  fold is_admin.
  destruct (find is_admin users) as [u|] eqn:E.
  - rewrite E. split; [discriminate|]. split; [reflexivity|].
    split; [reflexivity|discriminate].
  - rewrite find_snoc, E. simpl.
    split; [discriminate|]. split; [reflexivity|].
    split; [intro C; now contradiction C|].
    intros _. split; [reflexivity|]. split.
    + apply find_None_filter in E. rewrite filter_app, E. reflexivity.
    + intro C. apply next_rowid_fresh in C. lia.
Qed.

Lemma init_db_ensures_admin_witness :
  init_db "h1" [] = [User.mk 1 "admin" "h1" "ADMIN"] /\
  init_db "h2" (init_db "h1" []) = init_db "h1" [].
Proof.
  destruct (init_db_ensures_admin "h1" "h2" []) as (_ & H2 & _ & H4).
  split; [exact (proj1 (H4 eq_refl))|exact H2].
Defined.


(** X11. With user identifiers that are unique and not 0, as SQLite gives
    them: after a login that succeeded, [current_user] is the user whose
    name and password were given and [home] answers with the dashboard;
    after [logout], [current_user] is nobody and [home] redirects to
    [/login]. *)
Theorem login_home_logout (verify : string -> string -> bool)
  (username password : string) (s : session) (users : list User.t)
  (db : DB.t) :
  NoDup (map User.id users) ->
  (forall u, In u users -> User.id u <> 0) ->
  snd (login verify username password s users) =
  Plain (RedirectResponse "/" 303) ->
  let s1 := fst (login verify username password s users) in
  let s2 := fst (logout s1) in
  (exists u, current_user s1 users = Some u /\
             User.username u = username /\
             verify password (User.password_hash u) = true) /\
  (exists page, home s1 users db = HTMLResponse page) /\
  current_user s2 users = None /\
  home s2 users db = Plain (RedirectResponse "/login" 307).
Proof.
  intros Hnd Hnz Hok s1 s2. subst s1 s2.
  unfold login in *.
  destruct (find _ users) as [u|] eqn:E; [|discriminate Hok].
  destruct (verify password (User.password_hash u)) eqn:V;
    [|discriminate Hok].
  simpl. apply find_some in E. destruct E as [Hin Hname].
  apply String.eqb_eq in Hname.
  assert (C : current_user (Some (User.id u)) users = Some u).
  { unfold current_user.
    destruct (Z.eqb_spec (User.id u) 0) as [Z0|_];
      [now apply Hnz in Z0|].
    apply (find_by_key User.id Z.eqb); [apply Z.eqb_eq|exact Hnd|exact Hin]. }
  split; [exists u; now repeat split|].
  split; [|split; reflexivity].
  unfold home. rewrite C. eexists. reflexivity.
Qed.

Lemma login_home_logout_witness :
  NoDup (map User.id (init_db "admin123" [])) /\
  snd (login String.eqb "admin" "admin123" None (init_db "admin123" [])) =
  Plain (RedirectResponse "/" 303) /\
  exists u,
    current_user
      (fst (login String.eqb "admin" "admin123" None (init_db "admin123" [])))
      (init_db "admin123" []) = Some u /\
    User.username u = "admin".
Proof.
  assert (H1 : NoDup (map User.id (init_db "admin123" [])))
    by (repeat constructor; intros []).
  assert (H2 : forall u, In u (init_db "admin123" []) -> User.id u <> 0)
    by (intros u [<-|[]]; discriminate).
  split; [exact H1|]. split; [reflexivity|].
  destruct (@login_home_logout String.eqb "admin" "admin123" None
              (init_db "admin123" []) DB.empty H1 H2 eq_refl)
    as ((u & Hu & Hn & _) & _).
  exists u. split; [exact Hu|exact Hn].
Defined.

(** ** Search and navigation *)









Lemma select_limit_In {A : Type} (p : A -> exc bool) (rows : list A) :
  forall (limit : nat) (l : list A),
    select_limit p rows limit = Ok l -> forall a, In a l -> In a rows.
Proof.
  induction rows as [|x rows IH]; intros limit l; simpl.
  - intros [= <-] a [].
  - destruct limit as [|limit']; [intros [= <-] a []|].
    destruct (p x) as [[|]|e]; simpl; [| |discriminate].
    + destruct (select_limit p rows limit') as [l'|e] eqn:E; simpl;
        [|discriminate].
      intros [= <-] a [<-|Ha]; [now left|].
      right. exact (IH _ _ E a Ha).
    + intros H a Ha. right. exact (IH _ _ H a Ha).
Qed.

Lemma In_query_get (db : DB.t) (s : Spool.t) :
  In s (DB.spools db) -> query_get db (Spool.id s) <> None.
Proof.
  intros Hs C. unfold query_get in C.
  apply (find_none _ _ C) in Hs. now rewrite Z.eqb_refl in Hs.
Qed.

(** X14. [spool_detail] and [update_spool] agree on every identifier:
    the page exists exactly when the update is accepted, the one raises
    404 exactly when the other does, and likewise for the
    [OverflowError] of an identifier SQLite cannot hold.  Every spool the
    search lists has a page, and the page an update redirects to exists. *)
Theorem spool_detail_exists (db : DB.t) (spool_id : Z) :
  (forall stage status location note now,
      let r :=
        snd (update_spool spool_id stage status location note now db) in
      ((exists page, spool_detail spool_id db = HTMLResponse page) <->
       raised r = false) /\
      (spool_detail spool_id db = Plain (HTTPException 404) <->
       r = HTTPException 404) /\
      (spool_detail spool_id db = Plain (Uncaught OverflowError) <->
       r = Uncaught OverflowError)) /\
  (forall q rows s,
      spools_query q db = Ok rows -> In s rows ->
      exists page, spool_detail (Spool.id s) db = HTMLResponse page) /\
  (forall q s, In s (spools_rows q db) ->
               exists page, spool_detail (Spool.id s) db = HTMLResponse page)
  /\
  (forall stage status location note now,
      raised (snd (update_spool spool_id stage status location note now db))
      = false ->
      exists page,
        spool_detail spool_id
          (fst (update_spool spool_id stage status location note now db)) =
        HTMLResponse page).
Proof.
  assert (P : forall d i, query_get d i <> None ->
                          exists page, spool_detail i d = HTMLResponse page).
  { intros d i H. unfold spool_detail.
    destruct (query_get d i); [eexists; reflexivity|now contradiction H]. }
  split; [|split; [|split]].
  - intros stage status location note now r. subst r.
    unfold spool_detail, update_spool.
    destruct (query_get db spool_id) as [sp|].
    + simpl. split; [|split].
      * split; [reflexivity|intros _; eexists; reflexivity].
      * split; discriminate.
      * split; discriminate.
    + simpl. destruct (sqlite_int spool_id); simpl.
      * split; [|split].
        -- split; [intros [page C]; discriminate C|discriminate].
        -- split; reflexivity.
        -- split; discriminate.
      * split; [|split].
        -- split; [intros [page C]; discriminate C|discriminate].
        -- split; discriminate.
        -- split; reflexivity.
  - intros q rows s Hq Hs. apply P, In_query_get.
    unfold spools_query in Hq.
    destruct (negb (String.eqb q "")).
    + exact (select_limit_In _ _ _ Hq s Hs).
    + assert (E : firstn 100 (DB.spools db) = rows) by congruence.
      rewrite <- E in Hs. exact (In_firstn _ _ _ Hs).
  - intros q s Hs. apply P, In_query_get.
    rewrite spools_rows_filter in Hs. apply In_firstn, filter_In in Hs.
    tauto.
  - intros stage status location note now Hok. apply P.
    rewrite update_spool_keeps_spool. intro C.
    rewrite update_spool_missing in Hok by exact C.
    destruct (sqlite_int spool_id); discriminate Hok.
Qed.



(** ** Import from a worksheet *)

Lemma In_py_range (a b x : Z) : In x (py_range a b) <-> a <= x < b.
Proof.
  unfold py_range. rewrite in_map_iff. split.
  - intros (i & <- & Hi). apply in_seq in Hi. lia.
  - intro H. exists (Z.to_nat (x - a)). split; [lia|].
    apply in_seq. lia.
Qed.

Lemma py_range_sorted (a b : Z) : StronglySorted Z.lt (py_range a b).
Proof.
  unfold py_range. generalize (Z.to_nat (b - a)) as n. generalize 0%nat as s.
  intros s n. revert s. induction n as [|n IH]; intro s; simpl.
  - constructor.
  - constructor; [apply IH|]. apply Forall_forall. intros x Hx.
    apply in_map_iff in Hx. destruct Hx as (i & <- & Hi).
    apply in_seq in Hi. lia.
Qed.

(** In a sorted list, [find] returns the least element that satisfies
    the test. *)
Lemma find_sorted_least (p : Z -> bool) (l : list Z) (c : Z) :
  StronglySorted Z.lt l -> find p l = Some c ->
  In c l /\ p c = true /\ (forall c', In c' l -> c' < c -> p c' = false).
Proof.
  intros Hs Hf. destruct (find_some _ _ Hf) as [H1 H2].
  split; [exact H1|]. split; [exact H2|].
  revert Hs Hf. clear H1 H2.
  induction l as [|a l IH]; simpl; [discriminate|].
  intros Hs. inversion Hs as [|? ? Hl Ha]; subst.
  destruct (p a) eqn:E.
  - intros [= ->] c' [->|Hc'] Hlt; [lia|].
    rewrite Forall_forall in Ha. specialize (Ha c' Hc'). lia.
  - intros Hf c' [->|Hc'] Hlt; [exact E|now apply IH].
Qed.

(** The outer loop keeps the match of the last row that has one. *)
Lemma fold_last_match (g : Z -> option Z) (l : list Z) :
  forall init : option (Z * Z),
    let res :=
      fold_left
        (fun found r =>
           match g r with Some c => Some (c, r) | None => found end)
        l init in
    ((forall r, In r l -> g r = None) /\ res = init) \/
    (exists l1 r l2 c,
        l = l1 ++ r :: l2 /\ g r = Some c /\
        (forall r', In r' l2 -> g r' = None) /\ res = Some (c, r)).
Proof.
  induction l as [|a l IH]; intros init res; subst res; simpl.
  - left. split; [intros r []|reflexivity].
  - destruct (IH (match g a with Some c => Some (c, a) | None => init end))
      as [[Hn Hr]|(l1 & r & l2 & c & Hl & Hg & Hn & Hr)].
    + destruct (g a) as [c|] eqn:E.
      * right. exists [], a, l, c. repeat split; auto.
      * left. split; [|exact Hr]. intros r [<-|Hin]; auto.
    + right. exists (a :: l1), r, l2, c. subst l. repeat split; auto.
Qed.

Lemma sorted_split (l1 l2 : list Z) (r : Z) :
  StronglySorted Z.lt (l1 ++ r :: l2) ->
  forall x, In x l2 <-> In x (l1 ++ r :: l2) /\ r < x.
Proof.
  induction l1 as [|a l1 IH]; simpl; intros Hs x.
  - apply StronglySorted_inv in Hs. destruct Hs as [Hl Ha].
    rewrite Forall_forall in Ha. split.
    + intro Hx. split; [now right|now apply Ha].
    + intros [[->|Hx] Hlt]; [lia|exact Hx].
  - apply StronglySorted_inv in Hs. destruct Hs as [Hl Ha].
    rewrite Forall_forall in Ha.
    rewrite (IH Hl x). split.
    + intros [Hx Hlt]. split; [now right|exact Hlt].
    + intros [[E|Hx] Hlt]; [|now split].
      assert (a < r) by (apply Ha, in_or_app; right; now left). lia.
Qed.

Section HeaderSearch.
Variable ws : Worksheet.t.

Let header (r c : Z) : Prop :=
  is_header_cell (Worksheet.cell ws r c) = true.

Let in_sheet (r c : Z) : Prop :=
  1 <= r <= 9 /\ 1 <= c <= Worksheet.max_column ws.

Lemma find_header_Some (c r : Z) :
  find_header ws = Some (c, r) ->
  in_sheet r c /\ header r c /\
  (forall c', 1 <= c' < c -> ~ header r c') /\
  (forall r' c', r < r' -> in_sheet r' c' -> ~ header r' c').
Proof.
  unfold find_header. intro H.
  assert (F := fold_last_match
                 (fun r =>
                    find (fun c => is_header_cell (Worksheet.cell ws r c))
                      (py_range 1 (Worksheet.max_column ws + 1)))
                 (py_range 1 10) None).
  cbv zeta beta in F. rewrite H in F.
  destruct F as [[_ Hr]|(l1 & r0 & l2 & c0 & Hl & Hg & Hn & Hr)];
    [discriminate|].
  injection Hr as -> ->.
  apply find_sorted_least in Hg; [|apply py_range_sorted].
  destruct Hg as (Hc & Hh & Hleast). apply In_py_range in Hc.
  assert (Hin : In r0 (py_range 1 10))
    by (rewrite Hl; apply in_or_app; right; now left).
  apply In_py_range in Hin.
  assert (Hsplit := @sorted_split l1 l2 r0).
  rewrite <- Hl in Hsplit. specialize (Hsplit (py_range_sorted 1 10)).
  unfold in_sheet, header.
  split; [lia|]. split; [exact Hh|]. split.
  - intros c' Hc' C. rewrite Hleast in C; [discriminate| |lia].
    apply In_py_range. lia.
  - intros r' c' Hlt [Hr' Hc'] C.
    assert (Hr2 : In r' l2).
    { apply Hsplit. split; [apply In_py_range; lia|exact Hlt]. }
    apply Hn in Hr2. cbv beta in Hr2.
    rewrite (find_none _ _ Hr2 c') in C;
      [discriminate|apply In_py_range; lia].
Qed.

Lemma find_header_None :
  find_header ws = None ->
  forall r c, in_sheet r c -> ~ header r c.
Proof.
  unfold find_header. intro H.
  assert (F := fold_last_match
                 (fun r =>
                    find (fun c => is_header_cell (Worksheet.cell ws r c))
                      (py_range 1 (Worksheet.max_column ws + 1)))
                 (py_range 1 10) None).
  cbv zeta beta in F. rewrite H in F.
  destruct F as [[Hn _]|(l1 & r0 & l2 & c0 & _ & _ & _ & Hr)];
    [|discriminate].
  intros r c [Hr Hc] C. unfold header in C.
  assert (Hin : In r (py_range 1 10)) by (apply In_py_range; lia).
  apply Hn in Hin. cbv beta in Hin.
  rewrite (find_none _ _ Hin c) in C;
    [discriminate|apply In_py_range; lia].
Qed.

(** X15. The header search of [import_excel] looks at rows 1 to 9 and
    columns 1 to [max_column] for a cell whose text contains ["isom"] in
    any case. As [break] leaves the inner loop only, it settles on the
    LAST such row, and in that row on the first such column; [col] and
    [header_row] stay unassigned exactly when no such cell exists. *)
Theorem find_header_last_row_first_column :
  (forall c r,
      find_header ws = Some (c, r) <->
      in_sheet r c /\ header r c /\
      (forall c', 1 <= c' < c -> ~ header r c') /\
      (forall r' c', r < r' -> in_sheet r' c' -> ~ header r' c')) /\
  (find_header ws = None <-> forall r c, in_sheet r c -> ~ header r c).
Proof.
  assert (Hnone : (forall r c, in_sheet r c -> ~ header r c) ->
                  find_header ws = None).
  { intro H. destruct (find_header ws) as [[c r]|] eqn:E; [|reflexivity].
    apply find_header_Some in E. destruct E as (E1 & E2 & _).
    now apply H in E2. }
  split; [|split; [apply find_header_None|exact Hnone]].
  intros c r. split; [apply find_header_Some|].
  intros (Hin & Hh & Hc & Hr).
  destruct (find_header ws) as [[c0 r0]|] eqn:E.
  - apply find_header_Some in E.
    destruct E as (Hin0 & Hh0 & Hc0 & Hr0).
    assert (r0 = r).
    { destruct (Z.lt_trichotomy r0 r) as [L|[L|L]]; [|exact L|].
      - now apply (Hr0 r c L Hin) in Hh.
      - now apply (Hr r0 c0 L Hin0) in Hh0. }
    subst r0.
    assert (c0 = c).
    { destruct (Z.lt_trichotomy c0 c) as [L|[L|L]]; [|exact L|].
      - destruct Hin0 as [_ Hin0]. now apply (Hc c0) in Hh0; [|lia].
      - destruct Hin as [_ Hin]. now apply (Hc0 c) in Hh; [|lia]. }
    now subst c0.
  - exfalso. exact (find_header_None E Hin Hh).
Qed.
End HeaderSearch.

Lemma import_rows_cons (t : string) (tags : list string) (db : DB.t) :
  import_rows (t :: tags) db = import_rows tags (import_row t db).
Proof. reflexivity. Qed.

Lemma import_row_keeps_resolved (t t' : string) (db : DB.t) :
  filter_by_tag_first db t <> None ->
  filter_by_tag_first (import_row t' db) t = filter_by_tag_first db t.
Proof.
  unfold filter_by_tag_first. rewrite import_row_spools.
  apply find_app_Some.
Qed.

Lemma import_rows_keeps_resolved (t : string) (tags : list string) :
  forall db : DB.t,
    filter_by_tag_first db t <> None ->
    filter_by_tag_first (import_rows tags db) t = filter_by_tag_first db t.
Proof.
  induction tags as [|t' tags IH]; intros db H; [reflexivity|].
  rewrite import_rows_cons, IH; rewrite import_row_keeps_resolved; auto.
Qed.

Lemma import_rows_resolved (tags : list string) (db : DB.t) :
  (forall t, In t tags -> filter_by_tag_first db t <> None) ->
  import_rows tags db = db.
Proof.
  induction tags as [|t tags IH]; intro H; [reflexivity|].
  rewrite import_rows_cons.
  assert (E : import_row t db = db).
  { destruct (filter_by_tag_first db t) as [s|] eqn:F.
    - exact (import_row_found _ _ F).
    - exfalso. apply (H t); [now left|exact F]. }
  rewrite E. apply IH. intros t' Ht'. apply H. now right.
Qed.

(** What the row loop does to the database. *)
Lemma import_rows_effect (tags : list string) :
  forall db : DB.t,
    let db' := import_rows tags db in
    DB.spool_states db' = DB.spool_states db /\
    DB.events db' = DB.events db /\
    (exists new,
        DB.spools db' = DB.spools db ++ new /\
        forall s, In s new -> In (Spool.tag s) tags) /\
    (forall t, In t tags -> filter_by_tag_first db' t <> None).
Proof.
  induction tags as [|t tags IH]; intros db db'; subst db'.
  - simpl. repeat split; [|intros t []].
    exists []. split; [now rewrite app_nil_r|intros s []].
  - rewrite import_rows_cons.
    destruct (IH (import_row t db)) as (H1 & H2 & (new & H3 & H4) & H5).
    destruct (import_row_states t db) as [S1 S2].
    split; [congruence|]. split; [congruence|]. split.
    + rewrite H3, import_row_spools, <- app_assoc. eexists.
      split; [reflexivity|]. intros s Hs. apply in_app_or in Hs.
      destruct Hs as [Hs|Hs]; [|right; now apply H4].
      destruct (filter_by_tag_first db t); [destruct Hs|].
      destruct Hs as [<-|[]]. now left.
    + intros t' [<-|Ht']; [|now apply H5].
      rewrite import_rows_keeps_resolved; rewrite import_row_resolves;
        now destruct (filter_by_tag_first db t).
Qed.

Lemma In_sheet_tags (ws : Worksheet.t) (col header_row : Z) (t : string) :
  In t (sheet_tags ws col header_row) <->
  exists row,
    header_row < row <= Worksheet.max_row ws /\
    truthy (Worksheet.cell ws row col) = true /\
    t = py_strip (py_str (Worksheet.cell ws row col)).
Proof.
  unfold sheet_tags. rewrite in_flat_map. split.
  - intros (row & Hrow & Ht). apply In_py_range in Hrow.
    destruct (truthy (Worksheet.cell ws row col)) eqn:E; [|destruct Ht].
    destruct Ht as [<-|[]]. exists row. repeat split; try lia. exact E.
  - intros (row & Hrow & Htruthy & ->). exists row.
    split; [apply In_py_range; lia|]. rewrite Htruthy. now left.
Qed.

(** X16. Without a header cell in rows 1 to 9, [import_excel] raises
    [UnboundLocalError] and leaves the database as it was; with one it
    answers with the success message, whatever the rows hold. *)
Theorem import_excel_needs_header (ws : Worksheet.t) (db : DB.t) :
  let header r c := is_header_cell (Worksheet.cell ws r c) = true in
  let in_sheet r c :=
    1 <= r <= 9 /\ 1 <= c <= Worksheet.max_column ws in
  ((forall r c, in_sheet r c -> ~ header r c) ->
   import_excel ws db = (db, UnboundLocalError)) /\
  ((exists r c, in_sheet r c /\ header r c) ->
   snd (import_excel ws db) = Imported "Importado com sucesso").
Proof.
  intros header in_sheet. unfold import_excel. split.
  - intro H. destruct (find_header ws) as [[c r]|] eqn:E; [|reflexivity].
    apply find_header_Some in E. destruct E as (E1 & E2 & _).
    now apply H in E2.
  - intros (r & c & Hin & Hh).
    destruct (find_header ws) as [[c0 r0]|] eqn:E; [reflexivity|].
    exfalso. exact (@find_header_None ws E r c Hin Hh).
Qed.

(** X17. When the header is found in column [col] of row [header_row],
    [import_excel] gives every non-empty cell of that column below the
    header a spool whose tag is the stripped text of the cell; it adds
    spools at the end of the table only, each with the stripped text of
    such a cell as its tag, and leaves [spool_states] and [events] as they
    were. *)
Theorem import_excel_effect (ws : Worksheet.t) (db : DB.t)
  (col header_row : Z) :
  find_header ws = Some (col, header_row) ->
  let db' := fst (import_excel ws db) in
  let tag_of row := py_strip (py_str (Worksheet.cell ws row col)) in
  (forall row,
      header_row < row <= Worksheet.max_row ws ->
      truthy (Worksheet.cell ws row col) = true ->
      exists s, filter_by_tag_first db' (tag_of row) = Some s /\
                Spool.tag s = tag_of row) /\
  (exists new,
      DB.spools db' = DB.spools db ++ new /\
      forall s, In s new ->
                exists row,
                  header_row < row <= Worksheet.max_row ws /\
                  truthy (Worksheet.cell ws row col) = true /\
                  Spool.tag s = tag_of row) /\
  DB.spool_states db' = DB.spool_states db /\
  DB.events db' = DB.events db.
Proof.
  intros H db' tag_of. subst db'. unfold import_excel. rewrite H. simpl.
  destruct (import_rows_effect (sheet_tags ws col header_row) db)
    as (H1 & H2 & (new & H3 & H4) & H5).
  split; [|split; [|split; [exact H1|exact H2]]].
  - intros row Hrow Ht.
    assert (Hin : In (tag_of row) (sheet_tags ws col header_row)).
    { apply In_sheet_tags. exists row. now repeat split. }
    apply H5 in Hin.
    destruct (filter_by_tag_first _ (tag_of row)) as [s|] eqn:E;
      [|now contradiction Hin].
    exists s. split; [reflexivity|].
    apply find_Some_holds in E. now apply String.eqb_eq in E.
  - exists new. split; [exact H3|]. intros s Hs.
    apply H4, In_sheet_tags in Hs. exact Hs.
Qed.

(** X18. Importing the same worksheet again adds nothing. *)
Theorem import_excel_idempotent (ws : Worksheet.t) (db : DB.t) :
  import_excel ws (fst (import_excel ws db)) = import_excel ws db.
Proof.
  unfold import_excel.
  destruct (find_header ws) as [[col header_row]|]; [|reflexivity].
  simpl. f_equal. apply import_rows_resolved.
  apply (import_rows_effect (sheet_tags ws col header_row) db).
Qed.

Lemma import_excel_effect_witness :
  find_header ws_example = Some (2, 1) /\
  (exists s,
      filter_by_tag_first (fst (import_excel ws_example db_tags)) "42" =
      Some s /\ Spool.tag s = "42") /\
  DB.events (fst (import_excel ws_example db_tags)) = DB.events db_tags.
Proof.
  assert (H : find_header ws_example = Some (2, 1)) by reflexivity.
  split; [exact H|].
  destruct (@import_excel_effect ws_example db_tags 2 1 H)
    as (H1 & _ & _ & H4).
  split; [|exact H4].
  apply (H1 3); [cbn; lia|reflexivity].
Defined.

(** ** Stripped tags *)

Lemma py_lstrip_head (s : string) (c : ascii) (rest : string) :
  py_lstrip s = String c rest -> py_isspace c = false.
Proof.
  induction s as [|a s IH]; simpl; [discriminate|].
  destruct (py_isspace a) eqn:E; [exact IH|].
  now intros [= <- _].
Qed.

Lemma py_rstrip_head (c : ascii) (s : string) (c' : ascii) (rest : string) :
  py_rstrip (String c s) = String c' rest -> c' = c.
Proof.
  simpl. destruct (py_rstrip s); [destruct (py_isspace c)|];
    [discriminate|now intros [= -> _]|now intros [= -> _]].
Qed.

Lemma py_rstrip_last (s : string) :
  forall (rest : string) (c : ascii),
    py_rstrip s = String.append rest (String c "") -> py_isspace c = false.
Proof.
  induction s as [|a s IH]; intros rest c; simpl.
  - destruct rest; discriminate.
  - destruct (py_rstrip s) as [|b r] eqn:E.
    + destruct (py_isspace a) eqn:Ea; [destruct rest; discriminate|].
      destruct rest as [|x rest]; simpl.
      * now intros [= <-].
      * intros [= _ C]. destruct rest; discriminate C.
    + destruct rest as [|x rest]; simpl; [discriminate|].
      intros [= _ C]. exact (IH rest c C).
Qed.

Lemma py_strip_ends (s : string) :
  (forall c rest, py_strip s = String c rest -> py_isspace c = false) /\
  (forall c rest, py_strip s = String.append rest (String c "") ->
                  py_isspace c = false).
Proof.
  unfold py_strip. split.
  - intros c rest H. destruct (py_lstrip s) as [|a l] eqn:E;
      [discriminate H|].
    apply py_rstrip_head in H. subst c. exact (py_lstrip_head _ E).
  - intros c rest. apply py_rstrip_last.
Qed.

(** X19. The tag of a spool that [import_excel] adds neither begins nor
    ends with a whitespace character. *)
Theorem import_excel_strips_tags (ws : Worksheet.t) (db : DB.t)
  (s : Spool.t) :
  In s (DB.spools (fst (import_excel ws db))) ->
  ~ In s (DB.spools db) ->
  (forall c rest, Spool.tag s = String c rest -> py_isspace c = false) /\
  (forall c rest, Spool.tag s = String.append rest (String c "") ->
                  py_isspace c = false).
Proof.
  unfold import_excel.
  destruct (find_header ws) as [[col header_row]|]; simpl;
    [|intros H C; now contradiction C].
  destruct (import_rows_effect (sheet_tags ws col header_row) db)
    as (_ & _ & (new & H3 & H4) & _).
  rewrite H3. intros Hs Hold. apply in_app_or in Hs.
  destruct Hs as [Hs|Hs]; [now contradiction Hold|].
  apply H4, In_sheet_tags in Hs. destruct Hs as (row & _ & _ & ->).
  apply py_strip_ends.
Qed.

Lemma import_excel_strips_tags_witness :
  In (Spool.mk 4 "42") (DB.spools (fst (import_excel ws_example db_tags))) /\
  ~ In (Spool.mk 4 "42") (DB.spools db_tags) /\
  (forall c rest, "42" = String c rest -> py_isspace c = false).
Proof.
  assert (H1 : In (Spool.mk 4 "42")
                 (DB.spools (fst (import_excel ws_example db_tags))))
    by (vm_compute; tauto).
  assert (H2 : ~ In (Spool.mk 4 "42") (DB.spools db_tags))
    by (vm_compute; intros [C|[C|[C|[]]]]; discriminate C).
  split; [exact H1|]. split; [exact H2|].
  exact (proj1 (@import_excel_strips_tags ws_example db_tags _ H1 H2)).
Defined.

Lemma py_lstrip_blank (s : string) :
  forallb py_isspace (list_ascii_of_string s) = true -> py_lstrip s = "".
Proof.
  induction s as [|a s IH]; simpl; [reflexivity|].
  intro H. apply andb_true_iff in H. destruct H as [Ha Hs].
  rewrite Ha. now apply IH.
Qed.

(** X20. A cell below the header that holds whitespace only counts as
    non-empty, and its stripped text is empty: after the import there is a
    spool whose tag is the empty string. *)
Theorem import_excel_blank_cell (ws : Worksheet.t) (db : DB.t)
  (col header_row row : Z) (text : string) :
  find_header ws = Some (col, header_row) ->
  header_row < row <= Worksheet.max_row ws ->
  Worksheet.cell ws row col = VStr text ->
  text <> "" ->
  forallb py_isspace (list_ascii_of_string text) = true ->
  exists s,
    filter_by_tag_first (fst (import_excel ws db)) "" = Some s /\
    Spool.tag s = "".
Proof.
  intros H Hrow Hcell Hne Hblank. unfold import_excel. rewrite H. simpl.
  destruct (import_rows_effect (sheet_tags ws col header_row) db)
    as (_ & _ & _ & H5).
  assert (Hin : In "" (sheet_tags ws col header_row)).
  { apply In_sheet_tags. exists row. rewrite Hcell. simpl.
    split; [exact Hrow|]. split.
    - apply negb_true_iff. now apply String.eqb_neq.
    - unfold py_strip. now rewrite py_lstrip_blank. }
  apply H5 in Hin.
  destruct (filter_by_tag_first _ "") as [s|] eqn:E;
    [|now contradiction Hin].
  exists s. split; [reflexivity|].
  apply find_Some_holds in E. now apply String.eqb_eq in E.
Qed.

Lemma import_excel_blank_cell_witness :
  find_header ws_example = Some (2, 1) /\
  Worksheet.cell ws_example 5 2 = VStr "   " /\
  exists s,
    filter_by_tag_first (fst (import_excel ws_example db_tags)) "" = Some s.
Proof.
  assert (H : find_header ws_example = Some (2, 1)) by reflexivity.
  split; [exact H|]. split; [reflexivity|].
  destruct (@import_excel_blank_cell ws_example db_tags 2 1 5 "   " H)
    as (s & Hs & _);
    [cbn; lia|reflexivity|discriminate|reflexivity|].
  exists s. exact Hs.
Defined.

(** ** Wildcards and case in the search box *)

Lemma tolower_idem (c : ascii) : tolower (tolower c) = tolower c.
Proof. destruct c as [[] [] [] [] [] [] [] []]; reflexivity. Qed.

Lemma tolower_percent (c : ascii) :
  Ascii.eqb (tolower c) "%" = Ascii.eqb c "%".
Proof. destruct c as [[] [] [] [] [] [] [] []]; reflexivity. Qed.

Lemma tolower_underscore (c : ascii) :
  Ascii.eqb (tolower c) "_" = Ascii.eqb c "_".
Proof. destruct c as [[] [] [] [] [] [] [] []]; reflexivity. Qed.

Lemma like_fold_pattern (p : string) :
  forall s, like (fold_case p) s = like p s.
Proof.
  induction p as [|c p IH]; intro s; [reflexivity|].
  simpl fold_case.
  destruct (Ascii.eqb c "%") eqn:E1.
  - apply Ascii.eqb_eq in E1. subst c.
    change (tolower "%") with "%"%char.
    induction s as [|d s IHs];
      rewrite (like_any (fold_case p)), (like_any p), IH;
      [reflexivity|now rewrite IHs].
  - destruct (Ascii.eqb c "_") eqn:E2.
    + apply Ascii.eqb_eq in E2. subst c.
      change (tolower "_") with "_"%char. simpl.
      destruct s; [reflexivity|apply IH].
    + rewrite !like_char.
      * destruct s as [|d s]; [reflexivity|].
        unfold like_char_eqb. now rewrite tolower_idem, IH.
      * unfold is_wildcard. now rewrite E1, E2.
      * unfold is_wildcard.
        now rewrite tolower_percent, tolower_underscore, E1, E2.
Qed.

Lemma like_fold_string (p : string) :
  forall s, like p (fold_case s) = like p s.
Proof.
  induction p as [|c p IH]; intro s; [now destruct s|].
  destruct (Ascii.eqb c "%") eqn:E1.
  - apply Ascii.eqb_eq in E1. subst c.
    induction s as [|d s IHs]; [reflexivity|].
    rewrite (like_any p (String d s)), <- (IH (String d s)).
    simpl fold_case.
    rewrite (like_any p (String (tolower d) (fold_case s))).
    now rewrite IHs.
  - destruct (Ascii.eqb c "_") eqn:E2.
    + apply Ascii.eqb_eq in E2. subst c. simpl.
      destruct s; [reflexivity|apply IH].
    + rewrite !like_char by (unfold is_wildcard; now rewrite E1, E2).
      destruct s as [|d s]; [reflexivity|]. simpl fold_case.
      unfold like_char_eqb. now rewrite tolower_idem, IH.
Qed.

Lemma fold_case_append (a b : string) :
  fold_case (String.append a b) =
  String.append (fold_case a) (fold_case b).
Proof. induction a as [|c a IH]; simpl; [reflexivity|now rewrite IH]. Qed.

Lemma fold_case_empty (q : string) :
  String.eqb (fold_case q) "" = String.eqb q "".
Proof. now destruct q. Qed.

(** X21. The search ignores the case of ASCII letters on both sides, for
    every query, with or without wildcards: turning the capitals of the
    query, or of a tag, into small letters does not change whether the tag
    matches, and the search page lists the same spools for a query and for
    the query in small letters. *)
Theorem search_ignores_ascii_case (q : string) (db : DB.t) :
  (forall tag, contains tag (fold_case q) = contains tag q) /\
  (forall tag, contains (fold_case tag) q = contains tag q) /\
  spools_rows (fold_case q) db = spools_rows q db.
Proof.
  assert (H : forall tag, contains tag (fold_case q) = contains tag q).
  { intro tag. unfold contains.
    rewrite <- (like_fold_pattern (String "%" (String.append q "%"))).
    simpl fold_case. rewrite fold_case_append. reflexivity. }
  split; [exact H|]. split.
  - intro tag. unfold contains. apply like_fold_string.
  - rewrite !spools_rows_filter. f_equal. apply filter_ext.
    intro s. apply H.
Qed.

(** X22. In the search box [%] and [_] are wildcards, not characters to
    look for: the query ["%"] lists the spools as the empty query does,
    and the query ["_"] lists the spools whose tag is not empty, the first
    100 in both cases. *)
Theorem search_wildcard_queries (db : DB.t) :
  spools_rows "%" db = firstn 100 (DB.spools db) /\
  spools_rows "_" db =
  firstn 100
    (filter (fun s => negb (String.eqb (Spool.tag s) "")) (DB.spools db)).
Proof.
  rewrite !spools_rows_filter. split; f_equal.
  - apply forallb_filter_id, forallb_forall. intros s _.
    unfold contains. simpl String.append.
    rewrite like_any. apply orb_true_iff. left.
    rewrite like_any. apply orb_true_iff. left. apply like_percent.
  - apply filter_ext. intro s. unfold contains. simpl String.append.
    destruct (Spool.tag s) as [|c t]; [reflexivity|].
    rewrite like_any. simpl negb. apply orb_true_iff. left.
    change (like "%" t = true). apply like_percent.
Qed.

(** ** Nullable columns *)

(** X23. [location] and [note] are nullable columns that never hold
    [NULL]: in every database the handlers can produce, every snapshot and
    every event has a location and a note (the empty string when the form
    left them out). *)
Theorem reachable_location_note_not_null (db : DB.t) :
  reachable db ->
  (forall st, In st (DB.spool_states db) ->
              SpoolState.location st <> None /\
              SpoolState.note st <> None) /\
  (forall e, In e (DB.events db) ->
             Event.location e <> None /\ Event.note e <> None).
Proof.
  induction 1 as [|db sid f _ [IH1 IH2]|db tag _ [IH1 IH2]].
  - split; intros ? [].
  - unfold update_with.
    destruct (query_get db sid) as [s|] eqn:E;
      [|rewrite update_spool_missing by exact E; now split].
    assert (H : query_get db sid <> None) by congruence.
    split.
    + intros st Hst. apply update_spool_states_In in Hst; [|exact H].
      destruct Hst as [Hst|(_ & Hf & _)]; [now apply IH1|].
      unfold state_fields in Hf. injection Hf as _ _ -> ->.
      split; discriminate.
    + intros e He. rewrite update_spool_events in He by exact H.
      apply in_app_or in He. destruct He as [He|[<-|[]]];
        [now apply IH2|split; discriminate].
  - destruct (import_row_states tag db) as [-> ->]. now split.
Qed.

Lemma reachable_location_note_not_null_witness :
  reachable db_painting /\
  (forall e, In e (DB.events db_painting) ->
             Event.location e <> None /\ Event.note e <> None).
Proof.
  split; [exact reachable_db_painting|].
  exact (proj2 (reachable_location_note_not_null reachable_db_painting)).
Defined.
